(** * haddock3: alanine scanning (alascan/scan.py) and the MPI scheduler (libs/libmpi.py)

    A shallow embedding of the Python code.  Text is [string] (code points
    below 256, which covers PDB files and the scorer's report), Python [int]
    is [Z], Python [float] is the binary64 [float] of the Standard Library,
    an insertion-ordered [dict] is an association list, and an exception is
    the [Raise] case of [result]. *)

From Stdlib Require Import ZArith List Bool Ascii String Floats Lia.
From Stdlib Require Import Numbers.DecimalString Sorting.Permutation Sorting.Sorted.
Import ListNotations.
Open Scope string_scope.
Open Scope Z_scope.

(** ** Python values and exceptions *)

Inductive exn : Type :=
| IndexError
| ValueError
| TypeError
| KeyError (key : string)
| UnboundLocalError (var : string)
| FileNotFoundError (path : string)
| Exception_ (msg : string).

Inductive result (A : Type) : Type :=
| Ok (a : A)
| Raise (e : exn).
Arguments Ok {A} a.
Arguments Raise {A} e.

Definition bind {A B} (m : result A) (k : A -> result B) : result B :=
  match m with
  | Ok a => k a
  | Raise e => Raise e
  end.

Notation "x <- m ;; k" := (bind m (fun x => k))
  (at level 61, m at next level, right associativity).
Notation "' p <- m ;; k" := (bind m (fun p => k))
  (at level 61, p pattern, m at next level, right associativity).

Definition of_option {A} (e : exn) (o : option A) : result A :=
  match o with
  | Some a => Ok a
  | None => Raise e
  end.

(** [os.linesep] on a POSIX system. *)
Definition linesep : string := String "010"%char EmptyString.

(** ** The string operations the code uses *)

Module PyStr.

(** [str.isspace] on one code point below 256: TAB..CR, FS..US, space,
    NEL and NBSP. *)
Definition is_space (c : ascii) : bool :=
  let n := N_of_ascii c in
  ((9 <=? n) && (n <=? 13) || (28 <=? n) && (n <=? 32)
   || (n =? 133) || (n =? 160))%N.

Fixpoint lstrip (s : string) : string :=
  match s with
  | EmptyString => EmptyString
  | String c s' => if is_space c then lstrip s' else s
  end.

Fixpoint rstrip (s : string) : string :=
  match s with
  | EmptyString => EmptyString
  | String c s' =>
      let r := rstrip s' in
      if is_space c && (r =? "")%string then EmptyString else String c r
  end.

(** [s.strip()] *)
Definition strip (s : string) : string := rstrip (lstrip s).

(** [s[lo:hi]], [s[:hi]] and [s[lo:]] for indices that are not negative;
    a slice never raises, it is cut at the end of the string. *)
Definition slice (lo hi : nat) (s : string) : string :=
  substring lo (hi - lo) s.
Definition upto (hi : nat) (s : string) : string := substring 0 hi s.
Fixpoint from (lo : nat) (s : string) : string :=
  match lo, s with
  | O, _ => s
  | S n, EmptyString => EmptyString
  | S n, String _ s' => from n s'
  end.

(** [s[i]], which raises IndexError past the end. *)
Definition index (i : nat) (s : string) : result string :=
  match get i s with
  | Some c => Ok (String c EmptyString)
  | None => Raise IndexError
  end.

Definition startswith (s p : string) : bool := prefix p s.

Definition digit_val (c : ascii) : option Z :=
  let n := N_of_ascii c in
  if ((48 <=? n) && (n <=? 57))%N then Some (Z.of_N n - 48) else None.

(** The digits of an [int] literal: a single underscore may stand between
    two digits. *)
Fixpoint parse_digits (s : string) (acc : Z) (after_digit : bool) : option Z :=
  match s with
  | EmptyString => if after_digit then Some acc else None
  | String c s' =>
      match digit_val c with
      | Some d => parse_digits s' (10 * acc + d) true
      | None =>
          if (Ascii.eqb c "_" && after_digit)%bool
          then match s' with
               | EmptyString => None
               | _ => parse_digits s' acc false
               end
          else None
      end
  end.

(** [int(s)] in base ten: surrounding white space, one optional sign,
    digits.  ValueError otherwise. *)
Definition int (s : string) : result Z :=
  let t := strip s in
  of_option ValueError
    match t with
    | String "-"%char r => option_map Z.opp (parse_digits r 0 false)
    | String "+"%char r => parse_digits r 0 false
    | _ => parse_digits t 0 false
    end.

(** [str(n)] for an [int]. *)
Definition of_int (n : Z) : string := NilZero.string_of_int (Z.to_int n).

(** [s.replace(old, new)] for a non-empty [old]; [skip] counts the
    characters of a match still to be passed over. *)
Fixpoint replace_from (old new : string) (skip : nat) (s : string) : string :=
  match s with
  | EmptyString => EmptyString
  | String c s' =>
      match skip with
      | S k => replace_from old new k s'
      | O =>
          if prefix old s
          then new ++ replace_from old new (String.length old - 1) s'
          else String c (replace_from old new 0 s')
      end
  end.
Definition replace (old new s : string) : string := replace_from old new 0 s.

(** [s.split(sep)] for a non-empty [sep]; [cur] is the field being read. *)
Fixpoint split_from (sep : string) (skip : nat) (cur : string) (s : string)
  : list string :=
  match s with
  | EmptyString => [cur]
  | String c s' =>
      match skip with
      | S k => split_from sep k cur s'
      | O =>
          if prefix sep s
          then cur :: split_from sep (String.length sep - 1) EmptyString s'
          else split_from sep 0 (cur ++ String c EmptyString) s'
      end
  end.
Definition split (sep s : string) : list string :=
  split_from sep 0 EmptyString s.

(** [s.split()]: the maximal runs of characters that are not white space. *)
Fixpoint split_ws_from (cur : string) (s : string) : list string :=
  match s with
  | EmptyString => if (cur =? "")%string then [] else [cur]
  | String c s' =>
      if is_space c
      then (if (cur =? "")%string then [] else [cur]) ++ split_ws_from EmptyString s'
      else split_ws_from (cur ++ String c EmptyString) s'
  end.
Definition split_ws (s : string) : list string := split_ws_from EmptyString s.

(** [''.join(l)] *)
Definition join (l : list string) : string := String.concat EmptyString l.

(** [x in l] for a list of strings. *)
Definition mem (x : string) (l : list string) : bool :=
  existsb (String.eqb x) l.

(** [l[i]] and [l[-1]] on a list. *)
Definition item {A} (i : nat) (l : list A) : result A :=
  of_option IndexError (nth_error l i).
Definition last_item {A} (l : list A) : result A :=
  of_option IndexError (nth_error (rev l) 0).

End PyStr.

(** ** Insertion-ordered dictionaries *)

(** Keys are compared with [==]. *)
Class EqKey (K : Type) : Type := keqb : K -> K -> bool.

(** The comparison decides equality. *)
Class EqKeyLaws (K : Type) `{EqKey K} : Prop :=
  keqb_eq : forall x y : K, keqb x y = true <-> x = y.

#[global] Instance string_EqKey : EqKey string := String.eqb.

Module Dict.
Section Dict.
Context {K V : Type} `{EqKey K}.

Definition t := list (K * V).

Fixpoint lookup (k : K) (d : t) : option V :=
  match d with
  | [] => None
  | (k', v) :: d' => if keqb k k' then Some v else lookup k d'
  end.

(** [d[k] = v]: an existing key keeps its place, a new one goes last. *)
Fixpoint set (k : K) (v : V) (d : t) : t :=
  match d with
  | [] => [(k, v)]
  | (k', v') :: d' =>
      if keqb k k' then (k, v) :: d' else (k', v') :: set k v d'
  end.

Definition keys (d : t) : list K := map fst d.
End Dict.
Arguments t K V : clear implicits.

(** [d[k]] for a string key, which raises KeyError. *)
Definition get {V} (k : string) (d : t string V) : result V :=
  of_option (KeyError k) (lookup k d).
End Dict.

(** ** scan.py: [mutate] *)

Module Mutate.

Definition ATOMS_TO_BE_MUTATED : list string := ["C"; "N"; "CA"; "O"; "CB"].

Definition RES_CODES : Dict.t string string :=
  [("CYS", "C"); ("ASP", "D"); ("SER", "S"); ("GLN", "Q"); ("LYS", "K");
   ("ILE", "I"); ("PRO", "P"); ("THR", "T"); ("PHE", "F"); ("ASN", "N");
   ("GLY", "G"); ("HIS", "H"); ("LEU", "L"); ("ARG", "R"); ("TRP", "W");
   ("ALA", "A"); ("VAL", "V"); ("GLU", "E"); ("TYR", "Y"); ("MET", "M")].

(** The three fields read from a line that starts with ATOM:
    [line[21]], [int(line[22:26])] and [line[12:16].strip()]. *)
Definition atom_fields (line : string) : result (string * Z * string) :=
  chain <- PyStr.index 21 line ;;
  resnum <- PyStr.int (PyStr.slice 22 26 line) ;;
  Ok (chain, resnum, PyStr.strip (PyStr.slice 12 16 line)).

(** [line[:17] + mut_resname + line[20:]] *)
Definition rename (mut_resname line : string) : string :=
  PyStr.upto 17 line ++ mut_resname ++ PyStr.from 20 line.

(** The locals of the loop: the list [mut_pdb_l] and [resname]. *)
Record locals : Type := mk_locals {
  mut_pdb_l : list string;
  resname : string
}.

(** The body of the loop over [fh.readlines()]. *)
Definition mutate_line (target_chain : string) (target_resnum : Z)
    (mut_resname : string) (st : locals) (line : string) : result locals :=
  if PyStr.startswith line "ATOM" then
    '(chain, resnum, atom_name) <- atom_fields line ;;
    if ((target_chain =? chain)%string && (target_resnum =? resnum))%bool then
      let resname' :=
        if (resname st =? "")%string
        then PyStr.strip (PyStr.slice 17 20 line)
        else resname st in
      if PyStr.mem atom_name ATOMS_TO_BE_MUTATED
      then Ok (mk_locals (mut_pdb_l st ++ [rename mut_resname line]) resname')
      else Ok (mk_locals (mut_pdb_l st) resname')
    else Ok (mk_locals (mut_pdb_l st ++ [line]) (resname st))
  else Ok st.

Fixpoint mutate_loop (target_chain : string) (target_resnum : Z)
    (mut_resname : string) (lines : list string) (st : locals)
  : result locals :=
  match lines with
  | [] => Ok st
  | line :: rest =>
      st' <- mutate_line target_chain target_resnum mut_resname st line ;;
      mutate_loop target_chain target_resnum mut_resname rest st'
  end.

(** What a call of [mutate] writes: the path and the text. *)
Record written : Type := mk_written {
  mut_pdb_fname : string;
  mut_pdb_lines : list string;
  mut_pdb_text : string
}.

(** [mutate(pdb_f, target_chain, target_resnum, mut_resname)], where
    [pdb_name] is [pdb_f.name] and [lines] is what [readlines()] gives for
    the file.  The result is the file it writes; its path is what the
    function returns. *)
Definition mutate (pdb_name : string) (lines : list string)
    (target_chain : string) (target_resnum : Z) (mut_resname : string)
  : result written :=
  st <- mutate_loop target_chain target_resnum mut_resname lines
          (mk_locals [] "") ;;
  c1 <- Dict.get (resname st) RES_CODES ;;
  c2 <- Dict.get mut_resname RES_CODES ;;
  let mut_id := c1 ++ PyStr.of_int target_resnum ++ c2 in
  let fname :=
    PyStr.replace ".pdb" ("-" ++ target_chain ++ "_" ++ mut_id ++ ".pdb")
      pdb_name in
  Ok (mk_written fname (mut_pdb_l st) (PyStr.join (mut_pdb_l st))).

(** The reading of a line as a record of the requested residue; a line that
    is no ATOM record, or whose fields do not parse, is none. *)
Definition is_target (target_chain : string) (target_resnum : Z)
    (line : string) : bool :=
  PyStr.startswith line "ATOM" &&
  match atom_fields line with
  | Ok (chain, resnum, _) =>
      (target_chain =? chain)%string && (target_resnum =? resnum)
  | Raise _ => false
  end.

Definition atom_name_listed (line : string) : bool :=
  match atom_fields line with
  | Ok (_, _, atom_name) => PyStr.mem atom_name ATOMS_TO_BE_MUTATED
  | Raise _ => false
  end.

(** The lines that reach the output: ATOM records, and of the requested
    residue only the five listed atoms. *)
Definition kept (target_chain : string) (target_resnum : Z)
    (line : string) : bool :=
  PyStr.startswith line "ATOM" &&
  (negb (is_target target_chain target_resnum line) || atom_name_listed line).

Definition rewritten (target_chain : string) (target_resnum : Z)
    (mut_resname : string) (line : string) : string :=
  if is_target target_chain target_resnum line
  then rename mut_resname line
  else line.

(** The reading of the frame property as the specification words it: every
    ATOM record of the input that is not a listed atom of the requested
    residue is a line of the output. *)
Definition passes_unlisted (lines : list string) (target_chain : string)
    (target_resnum : Z) (out : list string) : Prop :=
  forall line, In line lines ->
    PyStr.startswith line "ATOM" = true ->
    (is_target target_chain target_resnum line && atom_name_listed line)
      = false ->
    In line out.

(** A structure of three residues: a TYR of chain A with a side chain, a
    GLY of chain A and an ALA of chain B, then TER and END. *)
Definition ex_n  := "ATOM      1  N   TYR A  12      11.104   6.134  -6.504  1.00  0.00           N  " ++ linesep.
Definition ex_ca := "ATOM      2  CA  TYR A  12      11.639   6.071  -5.147  1.00  0.00           C  " ++ linesep.
Definition ex_cg := "ATOM      3  CG  TYR A  12      12.001   7.500  -4.700  1.00  0.00           C  " ++ linesep.
Definition ex_gly := "ATOM      4  CA  GLY A  13      13.100   5.200  -5.000  1.00  0.00           C  " ++ linesep.
Definition ex_b  := "ATOM      5  CA  ALA B   7      20.100   1.200  -3.000  1.00  0.00           C  " ++ linesep.
Definition ex_ter := "TER" ++ linesep.
Definition ex_end := "END" ++ linesep.
Definition ex_pdb : list string :=
  [ex_n; ex_ca; ex_cg; ex_gly; ex_b; ex_ter; ex_end].

End Mutate.

(** ** The float and pandas operations the code uses *)

(** pandas is a library the code calls; [mean] and [std] follow its
    documentation: both skip the missing values, [std] is normalised
    by N - ddof with ddof = 1 unless told otherwise, and it is not a number
    when the count does not exceed ddof.  The sums are taken from left to
    right. *)
Module Pandas.

(** The conversion of an [int] to a [float]: the nearest binary64 value. *)
Definition float_of_int (n : Z) : float :=
  SF2Prim (binary_normalize prec emax n 0 false).

(** [x != y] on floats; it holds whenever either side is not a number. *)
Definition fne (x y : float) : bool := negb (PrimFloat.eqb x y).

(** A [Series] method skips the entries that are not a number. *)
Definition dropna (xs : list float) : list float :=
  filter (fun x => negb (PrimFloat.is_nan x)) xs.

Definition total (xs : list float) : float :=
  fold_left PrimFloat.add xs 0%float.

(** [Series.mean()]: the sum of the entries present over their count. *)
Definition mean (xs : list float) : float :=
  let v := dropna xs in
  (total v / float_of_int (Z.of_nat (List.length v)))%float.

(** [Series.std()] with the default [ddof=1]: with [count <= ddof] entries
    the result is not a number, otherwise the square root of the sum of
    the squared deviations over [count - ddof]. *)
Definition std (xs : list float) : float :=
  let v := dropna xs in
  let count := Z.of_nat (List.length v) in
  let ddof := 1 in
  if count <=? ddof then nan
  else
    let avg := (total v / float_of_int count)%float in
    let sqr := map (fun x => ((avg - x) * (avg - x))%float) v in
    PrimFloat.sqrt (total sqr / float_of_int (count - ddof))%float.

End Pandas.

(** ** scan.py: [add_zscores] *)

(** [add_zscores(df, column)] on the values of the column; the result is
    the new column [z_score]. *)
Definition add_zscores (column : list float) : list float :=
  let mean_delta := Pandas.mean column in
  let std_delta := Pandas.std column in
  if Pandas.fne std_delta 0%float
  then map (fun x => ((x - mean_delta) / std_delta)%float) column
  else map (fun _ => 0%float) column.

(** A column is free of not-a-number values. *)
Definition no_nan (xs : list float) : bool :=
  forallb (fun x => negb (PrimFloat.is_nan x)) xs.

(** A column is all zero. *)
Definition all_zero (xs : list float) : bool :=
  forallb (fun x => PrimFloat.eqb x 0%float) xs.

(** ** scan.py: [alascan_cluster_analysis] *)

Module Cluster.

(** A cluster identifier, and with it a key of [clt_scan] and [cl_pops]:
    an [int] or a [str]; the two never compare equal. *)
Inductive cl_key : Type :=
| KInt (n : Z)
| KStr (s : string).

Definition cl_key_eqb (a b : cl_key) : bool :=
  match a, b with
  | KInt m, KInt n => Z.eqb m n
  | KStr s, KStr u => String.eqb s u
  | _, _ => false
  end.

#[global] Instance cl_key_EqKey : EqKey cl_key := cl_key_eqb.

(** [f"{cl_id}"] *)
Definition fmt_key (k : cl_key) : string :=
  match k with
  | KInt n => PyStr.of_int n
  | KStr s => s
  end.

(** The attributes of a model the function reads. *)
Record model : Type := mk_model {
  clt_id : option cl_key;
  file_name : string
}.

(** The columns of a row of a per-structure file that the function reads. *)
Record scan_row : Type := mk_scan_row {
  chain : string;
  res : Z;
  ori_resname : string;
  delta_score : float;
  delta_vdw : float;
  delta_elec : float;
  delta_desolv : float;
  delta_bsa : float
}.

(** The per-structure files on disk: what [pd.read_csv] gives for a path,
    none when there is no such file.  A file that is there and that
    [pd.read_csv] cannot read (an empty one, say) has no case here. *)
Definition csv_store : Type := string -> option (list scan_row).

(** An entry of [clt_scan[cl_id]]. *)
Record entry : Type := mk_entry {
  sum_score : float;
  sum_vdw : float;
  sum_elec : float;
  sum_desolv : float;
  sum_bsa : float;
  frac_pr : Z
}.

Definition clt_scan_t : Type := Dict.t cl_key (Dict.t string entry).
Definition cl_pops_t : Type := Dict.t cl_key Z.

(** [f"{chain}-{res}-{ori_resname}"] *)
Definition ident_of (row : scan_row) : string :=
  chain row ++ "-" ++ PyStr.of_int (res row) ++ "-" ++ ori_resname row.

Definition first_entry (row : scan_row) : entry :=
  mk_entry (delta_score row) (delta_vdw row) (delta_elec row)
    (delta_desolv row) (delta_bsa row) 1.

Definition add_entry (e : entry) (row : scan_row) : entry :=
  mk_entry (sum_score e + delta_score row) (sum_vdw e + delta_vdw row)
    (sum_elec e + delta_elec row) (sum_desolv e + delta_desolv row)
    (sum_bsa e + delta_bsa row) (frac_pr e + 1).

Definition key_error {A} (k : cl_key) : result A := Raise (KeyError (fmt_key k)).

Definition get_key {V} (k : cl_key) (d : Dict.t cl_key V) : result V :=
  match Dict.lookup k d with
  | Some v => Ok v
  | None => key_error k
  end.

(** The body of the loop over the rows of one file. *)
Definition add_row (cl_id : cl_key) (clt_scan : clt_scan_t) (row : scan_row)
  : result clt_scan_t :=
  let ident := ident_of row in
  d <- get_key cl_id clt_scan ;;
  match Dict.lookup ident d with
  | None => Ok (Dict.set cl_id (Dict.set ident (first_entry row) d) clt_scan)
  | Some e => Ok (Dict.set cl_id (Dict.set ident (add_entry e row) d) clt_scan)
  end.

Fixpoint add_rows (cl_id : cl_key) (clt_scan : clt_scan_t)
    (rows : list scan_row) : result clt_scan_t :=
  match rows with
  | [] => Ok clt_scan
  | row :: rest =>
      clt_scan' <- add_row cl_id clt_scan row ;;
      add_rows cl_id clt_scan' rest
  end.

Definition cl_id_of (native : model) : cl_key :=
  match clt_id native with
  | None => KStr "-"
  | Some k => k
  end.

Definition alascan_fname (native : model) : string :=
  "scan_" ++ file_name native ++ ".csv".

(** The body of the first loop, over the models. *)
Definition visit (files : csv_store) (st : clt_scan_t * cl_pops_t)
    (native : model) : result (clt_scan_t * cl_pops_t) :=
  let '(clt_scan, cl_pops) := st in
  let cl_id := cl_id_of native in
  '(clt_scan, cl_pops) <-
    match Dict.lookup cl_id clt_scan with
    | None => Ok (Dict.set cl_id [] clt_scan, Dict.set cl_id 1 cl_pops)
    | Some _ =>
        n <- get_key cl_id cl_pops ;;
        Ok (clt_scan, Dict.set cl_id (n + 1) cl_pops)
    end ;;
  df_scan <- of_option (FileNotFoundError (alascan_fname native))
               (files (alascan_fname native)) ;;
  clt_scan <- add_rows cl_id clt_scan df_scan ;;
  Ok (clt_scan, cl_pops).

Fixpoint visit_all (files : csv_store) (st : clt_scan_t * cl_pops_t)
    (models : list model) : result (clt_scan_t * cl_pops_t) :=
  match models with
  | [] => Ok st
  | native :: rest =>
      st' <- visit files st native ;;
      visit_all files st' rest
  end.

(** A row of a cluster summary; [resnum] is a piece of the key, a [str]. *)
Record clt_row : Type := mk_clt_row {
  c_chain : string;
  c_resnum : string;
  c_resname : string;
  full_resname : string;
  avg_score : float;
  avg_vdw : float;
  avg_elec : float;
  avg_desolv : float;
  avg_bsa : float;
  frac_pres : float;
  z_score : float
}.

(** The row appended to [clt_data] for a key, before the z-score. *)
Definition average (cl_pops : cl_pops_t) (cl_id : cl_key) (ident : string)
    (e : entry) : result clt_row :=
  let parts := PyStr.split "-" ident in
  c <- PyStr.item 0 parts ;;
  n <- PyStr.item 1 parts ;;
  r <- PyStr.item 2 parts ;;
  let f := Pandas.float_of_int (frac_pr e) in
  pop <- get_key cl_id cl_pops ;;
  Ok (mk_clt_row c n r ident
        (sum_score e / f) (sum_vdw e / f) (sum_elec e / f)
        (sum_desolv e / f) (sum_bsa e / f)
        (f / Pandas.float_of_int pop) 0).

Fixpoint averages (cl_pops : cl_pops_t) (cl_id : cl_key)
    (d : Dict.t string entry) : result (list clt_row) :=
  match d with
  | [] => Ok []
  | (ident, e) :: d' =>
      row <- average cl_pops cl_id ident e ;;
      rows <- averages cl_pops cl_id d' ;;
      Ok (row :: rows)
  end.

Definition set_z (row : clt_row) (z : float) : clt_row :=
  mk_clt_row (c_chain row) (c_resnum row) (c_resname row) (full_resname row)
    (avg_score row) (avg_vdw row) (avg_elec row) (avg_desolv row)
    (avg_bsa row) (frac_pres row) z.

(** [add_zscores(df_scan_clt, 'delta_score')] on the rows. *)
Definition with_zscores (rows : list clt_row) : list clt_row :=
  map (fun p => set_z (fst p) (snd p))
    (combine rows (add_zscores (map avg_score rows))).

(** The order of [sort_values(by=['chain', 'resnum'])]: both columns hold
    strings, which compare by code point. *)
Definition row_le (a b : clt_row) : bool :=
  match String.compare (c_chain a) (c_chain b) with
  | Lt => true
  | Gt => false
  | Eq => String.leb (c_resnum a) (c_resnum b)
  end.

Fixpoint insert_row (a : clt_row) (l : list clt_row) : list clt_row :=
  match l with
  | [] => [a]
  | b :: l' => if row_le a b then a :: l else b :: insert_row a l'
  end.

(** The sort on several columns is stable: rows with equal keys keep their
    order. *)
Fixpoint sort_values (l : list clt_row) : list clt_row :=
  match l with
  | [] => []
  | a :: l' => insert_row a (sort_values l')
  end.

Definition scan_clt_filename (cl_id : cl_key) : string :=
  "scan_clt_" ++ fmt_key cl_id ++ ".csv".

(** The body of the second loop: the file written for one cluster. *)
Definition summarise (cl_pops : cl_pops_t)
    (kd : cl_key * Dict.t string entry) : result (string * list clt_row) :=
  let '(cl_id, d) := kd in
  clt_data <- averages cl_pops cl_id d ;;
  Ok (scan_clt_filename cl_id, sort_values (with_zscores clt_data)).

Fixpoint summarise_all (cl_pops : cl_pops_t) (clt_scan : clt_scan_t)
  : result (list (string * list clt_row)) :=
  match clt_scan with
  | [] => Ok []
  | kd :: rest =>
      f <- summarise cl_pops kd ;;
      fs <- summarise_all cl_pops rest ;;
      Ok (f :: fs)
  end.

(** [alascan_cluster_analysis(models)]: the dictionary it returns and the
    summary files it writes, in the order of writing. *)
Definition alascan_cluster_analysis (files : csv_store) (models : list model)
  : result (clt_scan_t * list (string * list clt_row)) :=
  '(clt_scan, cl_pops) <- visit_all files ([], []) models ;;
  written <- summarise_all cl_pops clt_scan ;;
  Ok (clt_scan, written).

End Cluster.

(** ** What the aggregation is measured against *)

Module ClusterSpec.
Import Cluster.

(** The members of a cluster among the models, in the order given. *)
Definition members (k : cl_key) (models : list model) : list model :=
  filter (fun m => keqb (cl_id_of m) k) models.

(** The cluster's total structure population. *)
Definition population (k : cl_key) (models : list model) : Z :=
  Z.of_nat (List.length (members k models)).

Definition rows_of (files : csv_store) (m : model) : list scan_row :=
  match files (alascan_fname m) with
  | Some rows => rows
  | None => []
  end.

(** All the rows of the files of the members of a cluster, in reading
    order. *)
Definition cluster_rows (files : csv_store) (k : cl_key)
    (models : list model) : list scan_row :=
  flat_map (rows_of files) (members k models).

(** The rows of a key. *)
Definition occurrences (ident : string) (rows : list scan_row)
  : list scan_row :=
  filter (fun r => (ident_of r =? ident)%string) rows.

(** The accumulated sum of a term over rows: the first value, then one
    addition per further row, in order. *)
Definition sum_of (term : scan_row -> float) (rows : list scan_row) : float :=
  match rows with
  | [] => 0%float
  | r :: rs => fold_left (fun a x => (a + term x)%float) rs (term r)
  end.

(** [pd.read_csv] gave the rows of the file of every model. *)
Definition all_read (files : csv_store) (models : list model) : Prop :=
  forall m, In m models -> files (alascan_fname m) <> None.

(** The models visited so far with the rows read for each; the last one
    may still be in reading. *)
Definition history : Type := list (cl_key * list scan_row).

Definition hist_of (k : cl_key) (h : history) : history :=
  filter (fun p => keqb (fst p) k) h.
Definition hist_rows (k : cl_key) (h : history) : list scan_row :=
  flat_map snd (hist_of k h).
Definition hist_pop (k : cl_key) (h : history) : nat :=
  List.length (hist_of k h).

(** The history of a whole pass over the models. *)
Definition history_of (files : csv_store) (models : list model) : history :=
  map (fun m => (cl_id_of m, rows_of files m)) models.

Definition entry_of (occ : list scan_row) : option entry :=
  match occ with
  | [] => None
  | r :: rs => Some (fold_left add_entry rs (first_entry r))
  end.

(** The state of the first loop agrees with the history. *)
Definition agrees (h : history) (clt_scan : clt_scan_t) (cl_pops : cl_pops_t)
  : Prop :=
  forall k,
    Dict.lookup k cl_pops =
      (if Nat.eqb (hist_pop k h) 0 then None
       else Some (Z.of_nat (hist_pop k h))) /\
    match Dict.lookup k clt_scan with
    | None => hist_pop k h = 0%nat
    | Some d =>
        hist_pop k h <> 0%nat /\
        forall ident,
          Dict.lookup ident d = entry_of (occurrences ident (hist_rows k h))
    end.

(** Two summary rows that differ at most in the z-score. *)
Definition same_but_z (a b : clt_row) : Prop := set_z a 0%float = set_z b 0%float.

(** *** Sample inputs *)

Definition zero_row (c : string) (n : Z) (rn : string) (d : float) : scan_row :=
  mk_scan_row c n rn d 0%float 0%float 0%float 0%float.

(** Two structures of cluster 1; the key A-12-ALA is in the file of the
    first one only, with [delta_score] 2.0. *)
Definition two_models : list model :=
  [mk_model (Some (KInt 1)) "m1.pdb"; mk_model (Some (KInt 1)) "m2.pdb"].
Definition two_files : csv_store :=
  fun path =>
    if (path =? "scan_m1.pdb.csv")%string
    then Some [zero_row "A" 12 "ALA" 2%float; zero_row "A" 13 "GLY" 1%float]
    else if (path =? "scan_m2.pdb.csv")%string
    then Some [zero_row "A" 13 "GLY" 3%float]
    else None.

(** One unclustered structure whose file has the residues 2, 10 and 1 of
    chain A. *)
Definition one_model : list model := [mk_model None "m.pdb"].
Definition one_file : csv_store :=
  fun path =>
    if (path =? "scan_m.pdb.csv")%string
    then Some [zero_row "A" 2 "SER" 1%float; zero_row "A" 10 "LYS" 2%float;
               zero_row "A" 1 "MET" 3%float]
    else None.

(** The second structure of [two_models] has no file. *)
Definition lost_file : csv_store :=
  fun path =>
    if (path =? "scan_m1.pdb.csv")%string
    then Some [zero_row "A" 12 "ALA" 2%float]
    else None.

(** The call returns: the reading of "does not crash". *)
Definition returns (files : csv_store) (models : list model) : Prop :=
  exists r, alascan_cluster_analysis files models = Ok r.

(** The number of hyphens of a text. *)
Fixpoint hyphens (s : string) : nat :=
  match s with
  | EmptyString => 0
  | String c s' => ((if Ascii.eqb c "-" then 1 else 0) + hyphens s')%nat
  end.

End ClusterSpec.

(** ** scan.py: [calc_score] *)

Module Score.

(** What [subprocess.run] reports for the scorer: the exit code and the
    decoded standard output. *)
Record completed : Type := mk_completed {
  returncode : Z;
  stdout : string
}.

Definition score_prefix : string := "> HADDOCK-score (emscoring)".
Definition terms_prefix : string := "> vdw".

(** The five locals of the function; none while unbound. *)
Record terms : Type := mk_terms {
  score : option float;
  vdw : option float;
  elec : option float;
  desolv : option float;
  bsa : option float
}.

Definition unbound : terms := mk_terms None None None None None.

Definition five : Type := (float * float * float * float * float)%type.

Section CalcScore.
(** [float(s)] on a string, none for ValueError. *)
Variable py_float : string -> option float.

Definition to_float (s : string) : result float :=
  of_option ValueError (py_float s).

(** [float(ln.split(name)[1].split(",")[0])] *)
Definition field (name ln : string) : result float :=
  a <- PyStr.item 1 (PyStr.split name ln) ;;
  b <- PyStr.item 0 (PyStr.split "," a) ;;
  to_float b.

(** The body of the loop over the lines of the report. *)
Definition read_line (st : terms) (ln : string) : result terms :=
  st <-
    (if PyStr.startswith ln score_prefix then
       tok <- PyStr.last_item (PyStr.split_ws ln) ;;
       s <- to_float tok ;;
       Ok (mk_terms (Some s) (vdw st) (elec st) (desolv st) (bsa st))
     else Ok st) ;;
  if PyStr.startswith ln terms_prefix then
    v <- field "vdw=" ln ;;
    e <- field "elec=" ln ;;
    d <- field "desolv=" ln ;;
    b <- field "bsa=" ln ;;
    Ok (mk_terms (score st) (Some v) (Some e) (Some d) (Some b))
  else Ok st.

Fixpoint read_lines (st : terms) (out : list string) : result terms :=
  match out with
  | [] => Ok st
  | ln :: rest => st' <- read_line st ln ;; read_lines st' rest
  end.

(** [return score, vdw, elec, desolv, bsa]: the names are read from left
    to right, and reading an unbound one raises. *)
Definition return_terms (st : terms) : result five :=
  s <- of_option (UnboundLocalError "score") (score st) ;;
  v <- of_option (UnboundLocalError "vdw") (vdw st) ;;
  e <- of_option (UnboundLocalError "elec") (elec st) ;;
  d <- of_option (UnboundLocalError "desolv") (desolv st) ;;
  b <- of_option (UnboundLocalError "bsa") (bsa st) ;;
  Ok (s, v, e, d, b).

(** [calc_score(pdb_f, run_dir)], given what the scorer process did. *)
Definition calc_score (p : completed) : result five :=
  let out := PyStr.split linesep (stdout p) in
  if negb (returncode p =? 0) then Raise (Exception_ "calc_score failed")
  else
    st <- read_lines unbound out ;;
    return_terms st.
End CalcScore.

Definition has_line (pre : string) (p : completed) : Prop :=
  exists ln, In ln (PyStr.split linesep (stdout p)) /\
             PyStr.startswith ln pre = true.

(** Some line of the list starts with the prefix. *)
Definition mentions (pre : string) (out : list string) : bool :=
  existsb (fun ln => PyStr.startswith ln pre) out.

(** *** Sample input: a reader of the few numerals of the sample reports *)
Definition sample_float (s : string) : option float :=
  if (s =? "-10.5")%string then Some (-10.5)%float
  else if (s =? "-4.0")%string then Some (-4)%float
  else if (s =? "-2.0")%string then Some (-2)%float
  else if (s =? "1.5")%string then Some 1.5%float
  else if (s =? "900.0")%string then Some 900%float
  else if (s =? "-12.5")%string then Some (-12.5)%float
  else None.

Definition good_report : string :=
  "> HADDOCK-score (emscoring) = -10.5" ++ linesep ++
  "> vdw=-4.0,elec=-2.0,desolv=1.5,air=0.0,bsa=900.0" ++ linesep.

Definition no_terms_report : string :=
  "> HADDOCK-score (emscoring) = -10.5" ++ linesep.

End Score.

(** ** scan.py: [Scan.run] *)

Module ScanRun.
Import Score.

(** A value of [native.score] as the workflow may hand it over. *)
Inductive py_val : Type :=
| VFloat (x : float)
| VStr (s : string)
| VNone.

(** The attributes of a model the method reads; [rel_path] as text. *)
Record model : Type := mk_model {
  m_score : py_val;
  rel_path : string;
  file_name : string
}.

(** A row of [scan_data]. *)
Record scan_row : Type := mk_scan_row {
  r_chain : string;
  r_res : Z;
  r_ori_resname : string;
  r_end_resname : string;
  r_score : float;
  r_vdw : float;
  r_elec : float;
  r_desolv : float;
  r_bsa : float;
  r_delta_ori_score : float;
  r_delta_score : float;
  r_delta_vdw : float;
  r_delta_elec : float;
  r_delta_desolv : float;
  r_delta_bsa : float
}.

(** What the method does to the world outside, in order. *)
Inductive event : Type :=
| EvScore (pdb_f run_dir : string)
| EvMutate (w : Mutate.written)
| EvRemove (path : string)
| EvWriteScan (fname : string) (header : list string)
    (rows : list (scan_row * float)).

(** The locals that live across the iterations, the rows collected for
    the current model and the effects so far. *)
Record state : Type := mk_state {
  c_terms : option five;
  delta_ori_score : option float;
  scan_data : list scan_row;
  trace : list event
}.

Definition start : state := mk_state None None [] [].

Section Scan.
(** The collaborators outside scan.py: [float] on a string, the scorer
    process, the lines of a structure file (none when it cannot be
    opened), [CAPRI.identify_interface] and the keys of the coordinates
    that [load_coords] returns. *)
Variable py_float : string -> option float.
Variable haddock3_score : string -> string -> completed.
Variable read_pdb : string -> option (list string).
Variable identify_interface : string -> Dict.t string (list Z).
Variable coords_keys : string -> list (string * Z * string * string).

(** The attributes [scan_res] and [core] of the object. *)
Variable scan_res : string.
Variable core : Z.

(** [float(ori_score)] under [except ValueError]. *)
Definition coerce (v : py_val) : result float :=
  match v with
  | VFloat x => Ok x
  | VStr s => match py_float s with Some x => Ok x | None => Ok nan end
  | VNone => Raise TypeError
  end.

Definition sc_dir : string := "haddock3-score-" ++ PyStr.of_int core.

(** [pdb_f.name]: the last component of the path. *)
Definition name_of (path : string) : string :=
  match PyStr.last_item (PyStr.split "/" path) with
  | Ok n => n
  | Raise _ => path
  end.

Definition res_key (chain : string) (res : Z) : string :=
  chain ++ "-" ++ PyStr.of_int res.

(** The loop that fills [resname_dict]: the first name seen for a key. *)
Fixpoint resnames (keys : list (string * Z * string * string))
    (d : Dict.t string string) : Dict.t string string :=
  match keys with
  | [] => d
  | (chain, resid, _, resname) :: rest =>
      let key := res_key chain resid in
      match Dict.lookup key d with
      | None => resnames rest (Dict.set key resname d)
      | Some _ => resnames rest d
      end
  end.

(** The body of the loop over the residues of a chain. *)
Definition scan_residue (native : model) (n : five) (ori_score : float)
    (resname_dict : Dict.t string string) (chain : string) (st : state)
    (res : Z) : result state :=
  ori_resname <- Dict.get (res_key chain res) resname_dict ;;
  let end_resname := scan_res in
  if (ori_resname =? scan_res)%string then
    Ok (mk_state (Some n) (delta_ori_score st) (scan_data st) (trace st))
  else
    lines <- of_option (FileNotFoundError (rel_path native))
               (read_pdb (rel_path native)) ;;
    w <- Mutate.mutate (name_of (rel_path native)) lines chain res
           end_resname ;;
    let mut_pdb_name := Mutate.mut_pdb_fname w in
    c <- calc_score py_float (haddock3_score mut_pdb_name sc_dir) ;;
    let '(c_score, c_vdw, c_elec, c_des, c_bsa) := c in
    let '(n_score, n_vdw, n_elec, n_des, n_bsa) := n in
    let delta_ori :=
      if Pandas.fne ori_score nan
      then Some (c_score - ori_score)%float
      else delta_ori_score st in
    d <- of_option (UnboundLocalError "delta_ori_score") delta_ori ;;
    let row :=
      mk_scan_row chain res ori_resname end_resname
        c_score c_vdw c_elec c_des c_bsa d
        (c_score - n_score) (c_vdw - n_vdw) (c_elec - n_elec)
        (c_des - n_des) (c_bsa - n_bsa) in
    Ok (mk_state (Some c) delta_ori (scan_data st ++ [row])
          (trace st ++ [EvMutate w; EvScore mut_pdb_name sc_dir;
                        EvRemove mut_pdb_name])).

Fixpoint scan_chain (native : model) (n : five) (ori_score : float)
    (resname_dict : Dict.t string string) (chain : string) (st : state)
    (residues : list Z) : result state :=
  match residues with
  | [] => Ok st
  | res :: rest =>
      st' <- scan_residue native n ori_score resname_dict chain st res ;;
      scan_chain native n ori_score resname_dict chain st' rest
  end.

Fixpoint scan_chains (native : model) (n : five) (ori_score : float)
    (resname_dict : Dict.t string string)
    (interface : Dict.t string (list Z)) (st : state)
    (chains : list string) : result state :=
  match chains with
  | [] => Ok st
  | chain :: rest =>
      residues <- Dict.get chain interface ;;
      st' <- scan_chain native n ori_score resname_dict chain st residues ;;
      scan_chains native n ori_score resname_dict interface st' rest
  end.

Definition header (native : model) : list string :=
  ["########################################" ++ linesep;
   "# `alascan` results for " ++ file_name native ++ linesep;
   "#" ++ linesep;
   "########################################" ++ linesep].

Definition alascan_fname (native : model) : string :=
  "scan_" ++ file_name native ++ ".csv".

(** The body of the loop over [self.model_list]. *)
Definition scan_model (st : state) (native : model) : result state :=
  ori_score <- coerce (m_score native) ;;
  n <- calc_score py_float (haddock3_score (rel_path native) sc_dir) ;;
  let st := mk_state (c_terms st) (delta_ori_score st) []
              (trace st ++ [EvScore (rel_path native) sc_dir]) in
  let interface := identify_interface (rel_path native) in
  let resname_dict := resnames (coords_keys (rel_path native)) [] in
  st <- scan_chains native n ori_score resname_dict interface st
          (Dict.keys interface) ;;
  let z := add_zscores (map r_delta_score (scan_data st)) in
  Ok (mk_state (c_terms st) (delta_ori_score st) (scan_data st)
        (trace st ++ [EvWriteScan (alascan_fname native) (header native)
                        (combine (scan_data st) z)])).

(** [Scan.run()] *)
Fixpoint run_from (st : state) (model_list : list model) : result state :=
  match model_list with
  | [] => Ok st
  | native :: rest => st' <- scan_model st native ;; run_from st' rest
  end.
Definition run (model_list : list model) : result state :=
  run_from start model_list.

(** The residues of the given chains in the order the loops visit
    them, and those of the whole interface. *)
Definition residues_of (interface : Dict.t string (list Z))
    (chains : list string) : list (string * Z) :=
  flat_map
    (fun chain =>
       match Dict.lookup chain interface with
       | Some residues => map (pair chain) residues
       | None => []
       end)
    chains.
Definition interface_residues (interface : Dict.t string (list Z))
  : list (string * Z) :=
  residues_of interface (Dict.keys interface).

(** The residue is of another type than the scan target. *)
Definition differs (resname_dict : Dict.t string string)
    (cr : string * Z) : bool :=
  match Dict.lookup (res_key (fst cr) (snd cr)) resname_dict with
  | Some ori_resname => negb (ori_resname =? scan_res)%string
  | None => false
  end.

Definition row_key (row : scan_row) : string * Z :=
  (r_chain row, r_res row).

(** How many of the events satisfy a test. *)
Definition count (f : event -> bool) (evs : list event) : nat :=
  List.length (filter f evs).

Definition is_score (e : event) : bool :=
  match e with EvScore _ _ => true | _ => false end.
Definition is_mutate (e : event) : bool :=
  match e with EvMutate _ => true | _ => false end.
Definition is_write (e : event) : bool :=
  match e with EvWriteScan _ _ _ => true | _ => false end.
(** What a stretch of the run added: rows and events.  The rows are those
    of the residues in [visited] that differ from the target, and there is
    one scorer call and one mutation per row, and no file of results. *)
Definition added (rd : Dict.t string string) (visited : list (string * Z))
    (st st' : state) : Prop :=
  exists rows evs,
    scan_data st' = (scan_data st ++ rows)%list /\
    trace st' = (trace st ++ evs)%list /\
    map row_key rows = filter (differs rd) visited /\
    count is_score evs = List.length rows /\
    count is_mutate evs = List.length rows /\
    count is_write evs = 0%nat.

End Scan.

(** *** Sample input: the structure [Mutate.ex_pdb] under the path
    [m.pdb]; its interface is TYR 12 of chain A and ALA 7 of chain B. *)
Definition ex_model : model := mk_model (VStr "-12.5") "m.pdb" "m.pdb".
Definition ex_read (path : string) : option (list string) :=
  if (path =? "m.pdb")%string then Some Mutate.ex_pdb else None.
Definition ex_scorer (pdb_f run_dir : string) : completed :=
  mk_completed 0 good_report.
Definition ex_interface (path : string) : Dict.t string (list Z) :=
  [("A", [12]); ("B", [7])].
Definition ex_coords (path : string) : list (string * Z * string * string) :=
  [("A", 12, "N", "TYR"); ("A", 12, "CA", "TYR"); ("A", 12, "CG", "TYR");
   ("A", 13, "CA", "GLY"); ("B", 7, "CA", "ALA")].

End ScanRun.

(** ** libmpi.py: [MPIScheduler.run] *)

Module MPI.

(** What the method does to the world outside, in order. *)
Inductive event : Type :=
| LogInfo (msg : string)
| LogDebug (msg : string)
| LogError (msg : string)
| Pickle (fpath : string)
| Subprocess (cmd : string).

(** How the call ends: it returns, or [sys.exit(arg)] raises SystemExit. *)
Inductive outcome : Type :=
| Returned
| SystemExit (arg : option Z).

(** The exit status of the process when SystemExit ends it: zero when it
    carries no argument. *)
Definition exit_status (o : outcome) : option Z :=
  match o with
  | Returned => None
  | SystemExit None => Some 0
  | SystemExit (Some n) => Some n
  end.

(** The commands handed to [subprocess.run], in order. *)
Definition launched (tr : list event) : list string :=
  flat_map (fun e => match e with Subprocess cmd => [cmd] | _ => [] end) tr.

Section Run.
(** The collaborators: [find_executable], and the decoded standard error
    of the process started for a command line. *)
Variable find_executable : string -> option string.
Variable stderr_of : string -> string.

(** The attributes [cwd] and [ncores] of the scheduler. *)
Variable cwd : string.
Variable ncores : option Z.

(** [Path(self.cwd, "mpi.pkl")] as text. *)
Definition pkl_path : string :=
  if (cwd =? "/")%string then "/mpi.pkl" else cwd ++ "/mpi.pkl".

(** [f"{self.ncores}"] *)
Definition fmt_ncores : string :=
  match ncores with
  | Some n => PyStr.of_int n
  | None => "None"
  end.

Definition mpirun_cmd : string :=
  "mpirun -np " ++ fmt_ncores ++ " haddock3-mpitask " ++ pkl_path.
Definition srun_cmd : string := "srun haddock3-mpitask " ++ pkl_path.

Definition no_launcher_msg : string :=
  "mpirun or srun are not available on the system".

(** The part after the choice of [cmd]: the process is started on
    [shlex.split(cmd)] and its standard error decides. *)
Definition hand_off (tr : list event) (cmd : string)
  : list event * outcome :=
  let tr := (tr ++ [LogDebug ("MPI cmd is " ++ cmd); Subprocess cmd])%list in
  let err := stderr_of cmd in
  if negb (err =? "")%string
  then ((tr ++ [LogError err])%list, SystemExit None)
  else (tr, Returned).

(** [MPIScheduler.run()] *)
Definition run : list event * outcome :=
  let tr :=
    [LogDebug ("Pickling the tasks at " ++ pkl_path);
     Pickle pkl_path;
     LogInfo ("Executing tasks with the haddock3-mpitask runner using "
              ++ fmt_ncores ++ " processors...")] in
  match find_executable "mpirun" with
  | Some _ => hand_off tr mpirun_cmd
  | None =>
      match find_executable "srun" with
      | Some _ => hand_off tr srun_cmd
      | None => ((tr ++ [LogError no_launcher_msg])%list, SystemExit None)
      end
  end.
End Run.

(** *** Sample environments *)
Definition only_srun (name : string) : option string :=
  if (name =? "srun")%string then Some "/usr/bin/srun" else None.
Definition both_launchers (name : string) : option string :=
  if (name =? "srun")%string then Some "/usr/bin/srun"
  else if (name =? "mpirun")%string then Some "/usr/bin/mpirun"
  else None.
Definition no_launcher (name : string) : option string := None.
Definition quiet (cmd : string) : string := "".
Definition noisy (cmd : string) : string := "warning: something".

End MPI.

(** ** What [calc_score] is measured against *)

Module ScoreSpec.
Import Score.

(** A line of the report that the loop looks at. *)
Definition relevant (ln : string) : bool :=
  PyStr.startswith ln score_prefix || PyStr.startswith ln terms_prefix.

(** The lines of the report. *)
Definition report_lines (p : completed) : list string :=
  PyStr.split linesep (stdout p).

(** The last line of a list that starts with a prefix. *)
Fixpoint last_with (pre : string) (out : list string) : option string :=
  match out with
  | [] => None
  | ln :: rest =>
      match last_with pre rest with
      | Some l => Some l
      | None => if PyStr.startswith ln pre then Some ln else None
      end
  end.

Section Readers.
Variable py_float : string -> option float.

(** [float(ln.split()[-1])] *)
Definition score_of_line (ln : string) : result float :=
  tok <- PyStr.last_item (PyStr.split_ws ln) ;;
  to_float py_float tok.
End Readers.

(** A report with lines before, between and after the two the function
    reads. *)
Definition padded_report : string :=
  "HADDOCK3 scoring" ++ linesep ++
  "> HADDOCK-score (emscoring) = -10.5" ++ linesep ++
  "> note" ++ linesep ++
  "> vdw=-4.0,elec=-2.0,desolv=1.5,air=0.0,bsa=900.0" ++ linesep ++
  "done" ++ linesep.

End ScoreSpec.

(** ** The clusters of a list of models *)

Module ClusterOrder.
Import Cluster.

(** A key joins the list behind the others unless it is there. *)
Definition push (k : cl_key) (l : list cl_key) : list cl_key :=
  if existsb (keqb k) l then l else (l ++ [k])%list.

(** The cluster keys of the models, each once, in the order of their
    first appearance. *)
Definition clusters (models : list model) : list cl_key :=
  fold_left (fun l m => push (cl_id_of m) l) models [].

(** The file of a cluster has a row for each key of the cluster and for
    no other, each once. *)
Definition rows_match_keys (kd : cl_key * Dict.t string entry)
    (f : string * list clt_row) : Prop :=
  fst f = scan_clt_filename (fst kd) /\
  Permutation (map full_resname (snd f)) (Dict.keys (snd kd)).

End ClusterOrder.

(** ** What [Scan.run] is measured against *)

Module ScanSpec.
Import Score ScanRun.

(** The result files written, the mutant files written, the files scored
    and the files removed, each in order. *)
Definition written_files (tr : list event) : list string :=
  flat_map (fun e => match e with EvWriteScan f _ _ => [f] | _ => [] end) tr.
Definition mutant_files (tr : list event) : list string :=
  flat_map
    (fun e => match e with EvMutate w => [Mutate.mut_pdb_fname w] | _ => [] end)
    tr.
Definition scored_files (tr : list event) : list string :=
  flat_map (fun e => match e with EvScore f _ => [f] | _ => [] end) tr.
Definition removed_files (tr : list event) : list string :=
  flat_map (fun e => match e with EvRemove f => [f] | _ => [] end) tr.

(** A stretch of events that writes no file of results and in which the
    mutant files written are the files scored and the files removed. *)
Definition tidy (evs : list event) : Prop :=
  written_files evs = [] /\
  scored_files evs = mutant_files evs /\
  removed_files evs = mutant_files evs.

(** The events of a stretch of the run are tidy. *)
Definition grows_tidily (st st' : state) : Prop :=
  exists evs, trace st' = (trace st ++ evs)%list /\ tidy evs.

(** What a run over models adds to the trace. *)
Definition run_adds (models : list model) (st st' : state) : Prop :=
  exists evs,
    trace st' = (trace st ++ evs)%list /\
    written_files evs = map alascan_fname models /\
    removed_files evs = mutant_files evs /\
    List.length (scored_files evs) =
      (List.length models + List.length (mutant_files evs))%nat.

(** The name of the first key of the coordinates that is of a residue. *)
Fixpoint first_name (key : string)
    (keys : list (string * Z * string * string)) : option string :=
  match keys with
  | [] => None
  | (chain, resid, _, resname) :: rest =>
      if (key =? chain ++ "-" ++ PyStr.of_int resid)%string
      then Some resname
      else first_name key rest
  end.

Section Rows.
Variable py_float : string -> option float.
Variable haddock3_score : string -> string -> completed.
Variable read_pdb : string -> option (list string).
Variable scan_res : string.
Variable core : Z.

(** What a row of the file of a model says: the residue is of the
    interface record [rd] and of another type than the target, the five
    terms are those the scorer gave for the mutant written by [mutate],
    and the deltas are the differences to the workflow score and to the
    terms of the native structure. *)
Definition row_sound (native : model) (ori_score : float) (n : five)
    (rd : Dict.t string string) (row : scan_row) : Prop :=
  let '(n_score, n_vdw, n_elec, n_des, n_bsa) := n in
  Dict.lookup (r_chain row ++ "-" ++ PyStr.of_int (r_res row)) rd
    = Some (r_ori_resname row) /\
  r_ori_resname row <> scan_res /\
  r_end_resname row = scan_res /\
  (exists lines w,
     read_pdb (rel_path native) = Some lines /\
     Mutate.mutate (name_of (rel_path native)) lines (r_chain row)
       (r_res row) scan_res = Ok w /\
     calc_score py_float
       (haddock3_score (Mutate.mut_pdb_fname w) (sc_dir core))
       = Ok (r_score row, r_vdw row, r_elec row, r_desolv row, r_bsa row)) /\
  r_delta_ori_score row = (r_score row - ori_score)%float /\
  r_delta_score row = (r_score row - n_score)%float /\
  r_delta_vdw row = (r_vdw row - n_vdw)%float /\
  r_delta_elec row = (r_elec row - n_elec)%float /\
  r_delta_desolv row = (r_desolv row - n_des)%float /\
  r_delta_bsa row = (r_bsa row - n_bsa)%float.
End Rows.

(** A model whose workflow score is no number. *)
Definition ex_unscored : model := mk_model (VStr "n/a") "m.pdb" "m.pdb".

End ScanSpec.

(** ** What [mutate] is measured against *)

Module MutateSpec.
Import Mutate.

(** The residue name the loop settles on: the first one that is not
    blank among the records of the requested residue, in columns 17 to 19;
    the empty text when there is none. *)
Fixpoint first_resname (target_chain : string) (target_resnum : Z)
    (lines : list string) : string :=
  match lines with
  | [] => ""
  | line :: rest =>
      if is_target target_chain target_resnum line then
        let name := PyStr.strip (PyStr.slice 17 20 line) in
        if (name =? "")%string
        then first_resname target_chain target_resnum rest
        else name
      else first_resname target_chain target_resnum rest
  end.

(** The name of the file written, from the one-letter codes: every
    [.pdb] of the name of the input gives way to the chain and the
    mutation id. *)
Definition fname_of (pdb_name target_chain : string) (target_resnum : Z)
    (c1 c2 : string) : string :=
  let mut_id := c1 ++ PyStr.of_int target_resnum ++ c2 in
  PyStr.replace ".pdb" ("-" ++ target_chain ++ "_" ++ mut_id ++ ".pdb")
    pdb_name.

(** A line that the loop takes over as it is. *)
Definition settled (target_chain : string) (target_resnum : Z)
    (mut_resname : string) (line : string) : Prop :=
  (exists f, atom_fields line = Ok f) /\
  kept target_chain target_resnum line = true /\
  rewritten target_chain target_resnum mut_resname line = line.

End MutateSpec.

(** ** greetings.py: [get_greetings] *)

Module Greetings.
Section Greetings.
(** [random.sample(population, k)], which gives [k] of the elements of
    the population. *)
Variable sample : list string -> nat -> list string.

(** [get_greetings(options, how_many, sep, exclamation)]; none stands for
    the ZeroDivisionError of [how_many % len(options)] on no options. *)
Definition get_greetings (options : list string) (how_many : Z)
    (sep exclamation : string) : option string :=
  let len := Z.of_nat (List.length options) in
  if len =? 0 then None
  else
    let n := how_many mod len in
    Some (String.concat sep
            (map (fun s => s ++ exclamation)
               (sample options (Z.to_nat n)))).
End Greetings.

(** What is asked of a sampler: [k] elements, all of the population. *)
Definition samples (sample : list string -> nat -> list string) : Prop :=
  forall l k, (k <= List.length l)%nat ->
    List.length (sample l k) = k /\ incl (sample l k) l.

(** A sampler that takes the first elements. *)
Definition take_first (l : list string) (k : nat) : list string := firstn k l.

End Greetings.

(** ** sasascore: the residue dictionaries of [_run] *)

Module SasaScore.
Section Resdic.
Context {V : Type}.

(** [key[-1]] as text, for a key that is not empty. *)
Fixpoint last_char (key : string) : string :=
  match key with
  | EmptyString => EmptyString
  | String c EmptyString => key
  | String _ rest => last_char rest
  end.

(** [{key[-1]: value for key, value in params.items()
      if key.startswith(prefix)}] *)
Definition resdic (prefix : string) (params : Dict.t string V)
  : Dict.t string V :=
  fold_left
    (fun d kv =>
       if PyStr.startswith (fst kv) prefix
       then Dict.set (last_char (fst kv)) (snd kv) d
       else d)
    params [].

(** [d.pop(k)], which raises KeyError without the key. *)
Definition pop (k : string) (d : Dict.t string V) : result (Dict.t string V) :=
  match Dict.lookup k d with
  | Some _ => Ok (filter (fun kv => negb (fst kv =? k)%string) d)
  | None => Raise (KeyError k)
  end.

(** The two dictionaries as [_run] hands them to the jobs. *)
Definition resdics (params : Dict.t string V)
  : result (Dict.t string V * Dict.t string V) :=
  let buried_resdic := resdic "resdic_buried" params in
  let acc_resdic := resdic "resdic_accessible" params in
  buried_resdic <- pop "_" buried_resdic ;;
  acc_resdic <- pop "_" acc_resdic ;;
  Ok (buried_resdic, acc_resdic).

(** The value of the last parameter of a prefix whose name ends in a
    character. *)
Definition last_value (prefix c : string) (params : Dict.t string V)
  : option V :=
  fold_left
    (fun o kv =>
       if (PyStr.startswith (fst kv) prefix
           && (last_char (fst kv) =? c)%string)%bool
       then Some (snd kv) else o)
    params None.
End Resdic.

(** Parameters with the two placeholders and residues for the chains A
    and B. *)
Definition ex_params : Dict.t string (list Z) :=
  [("cutoff", []); ("resdic_buried_", []); ("resdic_accessible_", []);
   ("resdic_buried_A", [1; 2; 3]); ("resdic_accessible_B", [4; 5; 6])].

End SasaScore.

(** * Properties *)

(** ** Results and dictionaries *)

Lemma bind_ok {A B} (m : result A) (k : A -> result B) (b : B) :
  bind m k = Ok b -> exists a, m = Ok a /\ k a = Ok b.
Proof.
  destruct m as [a|e]; simpl; intro E.
  - now exists a.
  - discriminate.
Qed.

Ltac bind_inv H :=
  let a := fresh "a" in
  let E := fresh "E" in
  apply bind_ok in H; destruct H as (a & E & H).

#[global] Instance string_EqKeyLaws : EqKeyLaws string.
Proof. exact String.eqb_eq. Qed.

#[global] Instance cl_key_EqKeyLaws : EqKeyLaws Cluster.cl_key.
Proof.
  intros a b. unfold keqb, Cluster.cl_key_EqKey.
  destruct a, b; simpl; split; intro E; try discriminate.
  - apply Z.eqb_eq in E. now subst.
  - injection E as ->. apply Z.eqb_refl.
  - apply String.eqb_eq in E. now subst.
  - injection E as ->. apply String.eqb_refl.
Qed.

Lemma keqb_refl {K} `{EqKeyLaws K} (k : K) : keqb k k = true.
Proof. now apply keqb_eq. Qed.

Lemma keqb_neq {K} `{EqKeyLaws K} (k k' : K) :
  k <> k' -> keqb k k' = false.
Proof.
  intro N. destruct (keqb k k') eqn:E; [|reflexivity].
  apply keqb_eq in E. contradiction.
Qed.

Section DictFacts.
Context {K V : Type} `{EqKeyLaws K}.
Implicit Types (d : Dict.t K V) (k : K) (v : V).

Lemma lookup_set_same d k v : Dict.lookup k (Dict.set k v d) = Some v.
Proof.
  induction d as [|[k' v'] d IH]; simpl.
  - now rewrite keqb_refl.
  - destruct (keqb k k') eqn:E; simpl; rewrite ?keqb_refl, ?E; auto.
Qed.

Lemma lookup_set_other d k k' v :
  k' <> k -> Dict.lookup k' (Dict.set k v d) = Dict.lookup k' d.
Proof.
  intro N. induction d as [|[k0 v0] d IH]; simpl.
  - now rewrite (keqb_neq _ _ N).
  - destruct (keqb k k0) eqn:E; simpl.
    + apply keqb_eq in E. subst k0. now rewrite (keqb_neq _ _ N).
    + now rewrite IH.
Qed.

Lemma lookup_in d k v : Dict.lookup k d = Some v -> In (k, v) d.
Proof.
  induction d as [|[k0 v0] d IH]; simpl; [discriminate|].
  destruct (keqb k k0) eqn:E.
  - apply keqb_eq in E. subst. intros [= ->]. now left.
  - intro L. right. auto.
Qed.
End DictFacts.

(** ** [mutate] *)

Section MutateFacts.
Import Mutate.
Variables (target_chain : string) (target_resnum : Z) (mut_resname : string).

Lemma mutate_line_lines st line st' :
  mutate_line target_chain target_resnum mut_resname st line = Ok st' ->
  mut_pdb_l st' =
    (mut_pdb_l st ++
     map (rewritten target_chain target_resnum mut_resname)
       (filter (kept target_chain target_resnum) [line]))%list.
Proof.
  unfold mutate_line.
  destruct (PyStr.startswith line "ATOM") eqn:A.
  - destruct (atom_fields line) as [[[c n] a]|e] eqn:F; cbn [bind];
      [|discriminate].
    destruct ((target_chain =? c)%string && (target_resnum =? n))%bool
      eqn:T.
    + assert (IT : is_target target_chain target_resnum line = true)
        by (unfold is_target; now rewrite A, F).
      assert (L : atom_name_listed line = PyStr.mem a ATOMS_TO_BE_MUTATED)
        by (unfold atom_name_listed; now rewrite F).
      unfold kept, rewritten. cbn [filter]. rewrite A, IT, L.
      destruct (PyStr.mem a ATOMS_TO_BE_MUTATED); intros [= <-];
        cbn [andb orb negb map mut_pdb_l];
        [now rewrite IT | now rewrite app_nil_r].
    + assert (IT : is_target target_chain target_resnum line = false)
        by (unfold is_target; now rewrite A, F).
      unfold kept, rewritten. cbn [filter]. rewrite A, IT.
      intros [= <-]. cbn [andb orb negb map mut_pdb_l]. now rewrite IT.
  - unfold kept. cbn [filter]. rewrite A. intros [= <-].
    cbn [andb map]. now rewrite app_nil_r.
Qed.

Lemma mutate_loop_lines lines : forall st st',
  mutate_loop target_chain target_resnum mut_resname lines st = Ok st' ->
  mut_pdb_l st' =
    (mut_pdb_l st ++
     map (rewritten target_chain target_resnum mut_resname)
       (filter (kept target_chain target_resnum) lines))%list.
Proof.
  induction lines as [|line rest IH]; simpl; intros st st' E.
  - injection E as <-. now rewrite app_nil_r.
  - bind_inv E. apply IH in E. apply mutate_line_lines in E0.
    rewrite E, E0. simpl.
    destruct (kept target_chain target_resnum line); simpl;
      now rewrite <- ?app_assoc, ?app_nil_r.
Qed.

(** C3, as the code has it: the lines written are the ATOM records of
    the input in their order, without the records of the requested
    residue whose atom name is not one of C, N, CA, O, CB; a record of
    the requested residue that is kept has its residue name replaced,
    every other ATOM record is written as it was read, and a line that is
    no ATOM record is not written. *)
Theorem mutate_writes_kept_atoms pdb_name lines w :
  mutate pdb_name lines target_chain target_resnum mut_resname = Ok w ->
  mut_pdb_lines w =
    map (rewritten target_chain target_resnum mut_resname)
      (filter (kept target_chain target_resnum) lines) /\
  mut_pdb_text w = PyStr.join (mut_pdb_lines w) /\
  (forall line, In line lines ->
     PyStr.startswith line "ATOM" = true ->
     is_target target_chain target_resnum line = false ->
     In line (mut_pdb_lines w)) /\
  (forall line, In line lines ->
     is_target target_chain target_resnum line = true ->
     atom_name_listed line = true ->
     In (rename mut_resname line) (mut_pdb_lines w)) /\
  (forall out, In out (mut_pdb_lines w) ->
     exists line, In line lines /\
       PyStr.startswith line "ATOM" = true /\
       (is_target target_chain target_resnum line = true ->
        atom_name_listed line = true) /\
       out = rewritten target_chain target_resnum mut_resname line).
Proof.
  unfold mutate. intro E. bind_inv E. bind_inv E. bind_inv E.
  injection E as <-. simpl.
  apply mutate_loop_lines in E0. simpl in E0. rewrite E0.
  repeat split.
  - intros line I A T. apply in_map_iff. exists line. split.
    + unfold rewritten. now rewrite T.
    + apply filter_In. split; [assumption|].
      unfold kept. now rewrite A, T.
  - intros line I T L. apply in_map_iff. exists line. split.
    + unfold rewritten. now rewrite T.
    + apply filter_In. split; [assumption|].
      unfold kept. rewrite T, L.
      unfold is_target in T. apply andb_prop in T as [-> _]. reflexivity.
  - intros out I. apply in_map_iff in I as (line & <- & I).
    apply filter_In in I as [I Kp]. exists line.
    unfold kept in Kp. apply andb_prop in Kp as [A Kp].
    repeat split; try assumption.
    intro T. rewrite T in Kp. exact Kp.
Qed.
End MutateFacts.

(** C3, a witness: the sample structure mutated at TYR 12 of chain A. *)
Lemma mutate_writes_kept_atoms_witness :
  exists w,
    Mutate.mutate "m.pdb" Mutate.ex_pdb "A" 12 "ALA" = Ok w /\
    Mutate.mut_pdb_lines w =
      map (Mutate.rewritten "A" 12 "ALA")
        (filter (Mutate.kept "A" 12) Mutate.ex_pdb).
Proof.
  eexists. split.
  - vm_compute. reflexivity.
  - eapply (mutate_writes_kept_atoms "A" 12 "ALA" "m.pdb" Mutate.ex_pdb).
    vm_compute. reflexivity.
Defined.

(** C3, as the specification words it, fails: the CG record of the
    requested residue of the sample structure is not in the output. *)
Lemma mutate_drops_side_chain :
  exists w,
    Mutate.mutate "m.pdb" Mutate.ex_pdb "A" 12 "ALA" = Ok w /\
    ~ Mutate.passes_unlisted Mutate.ex_pdb "A" 12 (Mutate.mut_pdb_lines w).
Proof.
  eexists. split.
  - vm_compute. reflexivity.
  - intro P.
    match type of P with
    | Mutate.passes_unlisted _ _ _ ?out =>
        assert (D : existsb (String.eqb Mutate.ex_cg) out = true)
    end.
    { apply existsb_exists. exists Mutate.ex_cg. split.
      - apply P; [simpl; auto 10 | reflexivity | vm_compute; reflexivity].
      - apply String.eqb_refl. }
    vm_compute in D. discriminate.
Qed.

(** ** [add_zscores] *)

Lemma div_by_nan (y : float) : (y / nan)%float = nan.
Proof.
  rewrite <- (SF2Prim_Prim2SF (y / nan)). rewrite div_spec.
  unfold SF64div, SFdiv.
  replace (Prim2SF nan) with S754_nan by reflexivity.
  destruct (Prim2SF y); reflexivity.
Qed.

Lemma std_one_row (x : float) : Pandas.std [x] = nan.
Proof.
  unfold Pandas.std, Pandas.dropna. simpl filter.
  destruct (negb (PrimFloat.is_nan x)); reflexivity.
Qed.

(** C2 fails on a column of one row: [Series.std()] is the sample
    deviation, which is not a number for a single value; not-a-number is
    different from 0.0, so the division is taken, and the z-score of the
    row is not a number whatever its value. *)
Theorem add_zscores_one_row_nan (x : float) :
  add_zscores [x] = [nan] /\
  no_nan (add_zscores [x]) = false /\
  all_zero (add_zscores [x]) = false.
Proof.
  assert (E : add_zscores [x] = [nan]).
  { unfold add_zscores. rewrite std_one_row.
    replace (Pandas.fne nan 0) with true by reflexivity.
    simpl map. now rewrite div_by_nan. }
  rewrite E. repeat split.
Qed.

(** With two equal rows the deviation is zero and so are the z-scores. *)
Example add_zscores_two_equal_rows :
  add_zscores [2%float; 2%float] = [0%float; 0%float].
Proof. vm_compute. reflexivity. Qed.

(** With three rows 0.1 and summation from left to right the mean is not
    0.1, the deviation is not zero and no z-score is zero. *)
Example add_zscores_three_equal_rows :
  let x := 0x1.999999999999ap-4%float in
  existsb (fun z => PrimFloat.eqb z 0) (add_zscores [x; x; x]) = false.
Proof. vm_compute. reflexivity. Qed.

(** ** [calc_score] *)

Section CalcScoreFacts.
Import Score.
Variable py_float : string -> option float.

Lemma read_line_score st ln st' :
  read_line py_float st ln = Ok st' ->
  PyStr.startswith ln score_prefix = false -> score st' = score st.
Proof.
  unfold read_line. intros E N. rewrite N in E. simpl in E.
  destruct (PyStr.startswith ln terms_prefix).
  - repeat bind_inv E. now injection E as <-.
  - now injection E as <-.
Qed.

Lemma read_line_vdw st ln st' :
  read_line py_float st ln = Ok st' ->
  PyStr.startswith ln terms_prefix = false -> vdw st' = vdw st.
Proof.
  unfold read_line. intros E N. rewrite N in E.
  bind_inv E. injection E as <-.
  destruct (PyStr.startswith ln score_prefix).
  - repeat bind_inv E0. now injection E0 as <-.
  - now injection E0 as <-.
Qed.

Lemma read_lines_unmentioned out : forall st st',
  read_lines py_float st out = Ok st' ->
  (mentions score_prefix out = false -> score st' = score st) /\
  (mentions terms_prefix out = false -> vdw st' = vdw st).
Proof.
  induction out as [|ln rest IH]; simpl; intros st st' E.
  - injection E as <-. auto.
  - bind_inv E. destruct (IH _ _ E) as [IHs IHv]. split; intro M;
      apply orb_false_elim in M as [M1 M2].
    + rewrite (IHs M2). eapply read_line_score; eauto.
    + rewrite (IHv M2). eapply read_line_vdw; eauto.
Qed.

Lemma read_line_score_bound st ln st' :
  read_line py_float st ln = Ok st' ->
  score st <> None \/ PyStr.startswith ln score_prefix = true ->
  score st' <> None.
Proof.
  unfold read_line. intros E B. bind_inv E.
  assert (Ba : score a <> None).
  { destruct (PyStr.startswith ln score_prefix).
    - repeat bind_inv E0. injection E0 as <-. discriminate.
    - injection E0 as <-. destruct B as [B|B]; [exact B|discriminate]. }
  destruct (PyStr.startswith ln terms_prefix).
  - repeat bind_inv E. now injection E as <-.
  - now injection E as <-.
Qed.

Lemma read_lines_score_bound out : forall st st',
  read_lines py_float st out = Ok st' ->
  score st <> None \/ mentions score_prefix out = true ->
  score st' <> None.
Proof.
  induction out as [|ln rest IH]; simpl; intros st st' E B.
  - injection E as <-. destruct B as [B|B]; [exact B|discriminate].
  - bind_inv E. apply (IH _ _ E).
    destruct B as [B|B].
    + left. eapply read_line_score_bound; eauto.
    + apply orb_prop in B as [B|B]; [left|now right].
      eapply read_line_score_bound; eauto.
Qed.

Lemma mentions_has_line pre p :
  mentions pre (PyStr.split linesep (stdout p)) = true -> has_line pre p.
Proof.
  unfold mentions, has_line. intro M.
  apply existsb_exists in M as (ln & I & S). now exists ln.
Qed.

Lemma has_line_mentions pre p :
  has_line pre p -> mentions pre (PyStr.split linesep (stdout p)) = true.
Proof.
  unfold mentions. intros (ln & I & S). apply existsb_exists. now exists ln.
Qed.

(** C6: the five terms are returned only after exit code zero and a
    report with a line of each of the two prefixes; any other exit code
    raises; and after exit code zero a report without a line of one of
    the prefixes raises too, no term is returned: when the lines that
    are there can be read, the error is the unbound name met first in
    the return statement. *)
Theorem calc_score_returns_only_parsed (p : completed) :
  (forall r, calc_score py_float p = Ok r ->
     returncode p = 0 /\
     has_line score_prefix p /\ has_line terms_prefix p) /\
  (returncode p <> 0 ->
     calc_score py_float p = Raise (Exception_ "calc_score failed")) /\
  (returncode p = 0 ->
     ~ has_line score_prefix p \/ ~ has_line terms_prefix p ->
     (exists e, calc_score py_float p = Raise e) /\
     forall st,
       read_lines py_float unbound (PyStr.split linesep (stdout p)) = Ok st ->
       calc_score py_float p =
         Raise (UnboundLocalError
                  (if mentions score_prefix
                        (PyStr.split linesep (stdout p))
                   then "vdw" else "score"))).
Proof.
  assert (Hok : forall r, calc_score py_float p = Ok r ->
            returncode p = 0 /\
            has_line score_prefix p /\ has_line terms_prefix p).
  { unfold calc_score. intros r E.
    destruct (returncode p =? 0) eqn:R; simpl in E; [|discriminate].
    apply Z.eqb_eq in R. split; [assumption|].
    bind_inv E. destruct (read_lines_unmentioned _ _ _ E0) as [Hs Hv].
    unfold return_terms in E.
    destruct (score a) eqn:S; simpl in E; [|discriminate].
    destruct (vdw a) eqn:V; simpl in E; [|discriminate].
    split; apply mentions_has_line.
    - destruct (mentions score_prefix _); [reflexivity|].
      specialize (Hs eq_refl). discriminate.
    - destruct (mentions terms_prefix _); [reflexivity|].
      specialize (Hv eq_refl). discriminate. }
  split; [exact Hok|]. split.
  - intro N. unfold calc_score. apply Z.eqb_neq in N. now rewrite N.
  - intros R M. split.
    + destruct (calc_score py_float p) as [r|e] eqn:E; [|now exists e].
      destruct (Hok r eq_refl) as (_ & Hs & Hv). tauto.
    + intros st E. unfold calc_score. rewrite R. simpl. rewrite E. simpl.
      destruct (read_lines_unmentioned _ _ _ E) as [Hs Hv].
      destruct (mentions score_prefix _) eqn:Ms.
      * destruct (mentions terms_prefix _) eqn:Mv.
        { exfalso. destruct M as [M|M]; apply M;
            now apply mentions_has_line. }
        assert (B := read_lines_score_bound _ _ _ E (or_intror Ms)).
        unfold return_terms. rewrite (Hv eq_refl). simpl.
        destruct (score st); [reflexivity | contradiction].
      * unfold return_terms. now rewrite (Hs eq_refl).
Qed.
End CalcScoreFacts.

(** C6, a witness: a full report after exit code zero gives the terms,
    exit code 1 raises, and a report without the line of the energy terms
    raises on the name [vdw]. *)
Lemma calc_score_returns_only_parsed_witness :
  (Score.returncode (Score.mk_completed 0 Score.good_report) = 0 /\
   Score.has_line Score.terms_prefix
     (Score.mk_completed 0 Score.good_report)) /\
  Score.calc_score Score.sample_float
    (Score.mk_completed 1 Score.good_report)
    = Raise (Exception_ "calc_score failed") /\
  Score.calc_score Score.sample_float
    (Score.mk_completed 0 Score.no_terms_report)
    = Raise (UnboundLocalError "vdw").
Proof.
  split; [|split].
  - destruct (proj1 (calc_score_returns_only_parsed Score.sample_float
                       (Score.mk_completed 0 Score.good_report))
                    (-10.5, -4, -2, 1.5, 900)%float) as (R & _ & T).
    + vm_compute. reflexivity.
    + split; assumption.
  - apply (proj1 (proj2 (calc_score_returns_only_parsed Score.sample_float
                           (Score.mk_completed 1 Score.good_report)))).
    simpl. lia.
  - destruct (proj2 (proj2 (calc_score_returns_only_parsed Score.sample_float
                              (Score.mk_completed 0 Score.no_terms_report))))
      as [_ U].
    + reflexivity.
    + right. intro H.
      apply (has_line_mentions Score.terms_prefix) in H.
      vm_compute in H. discriminate.
    + eapply eq_trans; [eapply U; vm_compute; reflexivity|].
      vm_compute. reflexivity.
Defined.

(** ** [MPIScheduler.run] *)

Section MPIFacts.
Import MPI.
Variable find_executable : string -> option string.
Variable stderr_of : string -> string.
Variable cwd : string.
Variable ncores : option Z.

Let the_run := run find_executable stderr_of cwd ncores.

Lemma hand_off_launched tr cmd :
  launched (fst (hand_off stderr_of tr cmd)) = (launched tr ++ [cmd])%list.
Proof.
  unfold hand_off, launched.
  destruct (negb (stderr_of cmd =? "")%string); simpl;
    rewrite !flat_map_app; simpl; now rewrite ?app_nil_r.
Qed.

(** C7: with mpirun found, the one process started is mpirun with
    [-np] and the core count, whether srun is there or not; without
    mpirun and with srun it is srun, with no count; with neither, an
    error is logged, no process is started and the call ends in
    SystemExit. *)
Theorem run_selects_launcher :
  (find_executable "mpirun" <> None ->
     launched (fst the_run) =
       ["mpirun -np " ++ fmt_ncores ncores ++ " haddock3-mpitask "
          ++ pkl_path cwd]) /\
  (find_executable "mpirun" = None -> find_executable "srun" <> None ->
     launched (fst the_run) = ["srun haddock3-mpitask " ++ pkl_path cwd]) /\
  (find_executable "mpirun" = None -> find_executable "srun" = None ->
     launched (fst the_run) = [] /\
     In (LogError no_launcher_msg) (fst the_run) /\
     exists arg, snd the_run = SystemExit arg).
Proof.
  unfold the_run, run. split; [|split].
  - intro M. destruct (find_executable "mpirun"); [|contradiction].
    now rewrite hand_off_launched.
  - intros M S. rewrite M.
    destruct (find_executable "srun"); [|contradiction].
    now rewrite hand_off_launched.
  - intros M S. rewrite M, S. split; [reflexivity|]. split.
    + cbn [fst]. apply in_or_app. right. now left.
    + now exists None.
Qed.

(** C10: on both fatal paths the call ends in [sys.exit()] without an
    argument, after an error was logged, so the exit status is 0. *)
Theorem run_fatal_paths_exit_zero :
  (find_executable "mpirun" = None -> find_executable "srun" = None ->
     snd the_run = SystemExit None /\
     exit_status (snd the_run) = Some 0 /\
     In (LogError no_launcher_msg) (fst the_run)) /\
  (forall cmd, launched (fst the_run) = [cmd] -> stderr_of cmd <> "" ->
     snd the_run = SystemExit None /\
     exit_status (snd the_run) = Some 0 /\
     In (LogError (stderr_of cmd)) (fst the_run)).
Proof.
  unfold the_run, run. split.
  - intros M S. rewrite M, S. cbn [fst snd exit_status].
    repeat split. apply in_or_app. right. now left.
  - intros cmd L N.
    assert (H : forall tr c,
              launched tr = [] ->
              launched (fst (hand_off stderr_of tr c)) = [cmd] ->
              snd (hand_off stderr_of tr c) = SystemExit None /\
              exit_status (snd (hand_off stderr_of tr c)) = Some 0 /\
              In (LogError (stderr_of cmd))
                (fst (hand_off stderr_of tr c))).
    { intros tr c T L'. rewrite hand_off_launched, T in L'.
      injection L' as ->. unfold hand_off.
      apply String.eqb_neq in N. rewrite N. simpl.
      repeat split. apply in_or_app. right. now left. }
    destruct (find_executable "mpirun").
    + now apply H.
    + destruct (find_executable "srun").
      * now apply H.
      * discriminate.
Qed.
End MPIFacts.

(** C7, a witness: with both launchers present mpirun is started with
    four cores; with srun alone srun is started; with neither nothing is. *)
Lemma run_selects_launcher_witness :
  MPI.launched (fst (MPI.run MPI.both_launchers MPI.quiet "/home/u" (Some 4)))
    = ["mpirun -np 4 haddock3-mpitask /home/u/mpi.pkl"] /\
  MPI.launched (fst (MPI.run MPI.only_srun MPI.quiet "/home/u" (Some 4)))
    = ["srun haddock3-mpitask /home/u/mpi.pkl"] /\
  MPI.launched (fst (MPI.run MPI.no_launcher MPI.quiet "/home/u" (Some 4)))
    = [].
Proof.
  split; [|split].
  - apply (proj1 (run_selects_launcher MPI.both_launchers MPI.quiet
                    "/home/u" (Some 4))).
    discriminate.
  - apply (proj1 (proj2 (run_selects_launcher MPI.only_srun MPI.quiet
                           "/home/u" (Some 4)))).
    + reflexivity.
    + discriminate.
  - apply (proj2 (proj2 (run_selects_launcher MPI.no_launcher MPI.quiet
                           "/home/u" (Some 4)))); reflexivity.
Defined.

(** C10, a witness: no launcher, and a launcher whose driver writes to
    its standard error. *)
Lemma run_fatal_paths_exit_zero_witness :
  MPI.exit_status
    (snd (MPI.run MPI.no_launcher MPI.quiet "/home/u" (Some 4))) = Some 0 /\
  MPI.exit_status
    (snd (MPI.run MPI.only_srun MPI.noisy "/home/u" (Some 4))) = Some 0.
Proof.
  split.
  - apply (proj1 (run_fatal_paths_exit_zero MPI.no_launcher MPI.quiet
                    "/home/u" (Some 4))); reflexivity.
  - apply (proj2 (run_fatal_paths_exit_zero MPI.only_srun MPI.noisy
                    "/home/u" (Some 4))
             "srun haddock3-mpitask /home/u/mpi.pkl").
    + reflexivity.
    + discriminate.
Defined.

(** ** [Scan.run] *)

Lemma add_zscores_length (column : list float) :
  List.length (add_zscores column) = List.length column.
Proof.
  unfold add_zscores.
  destruct (Pandas.fne (Pandas.std column) 0); apply length_map.
Qed.

Lemma map_fst_combine {A B} (l : list A) : forall (l' : list B),
  List.length l' = List.length l -> map fst (combine l l') = l.
Proof.
  induction l as [|a l IH]; intros [|b l'] E; simpl in *;
    try reflexivity; try discriminate.
  f_equal. apply IH. now injection E.
Qed.

Section ScanFacts.
Import Score ScanRun.
Variable py_float : string -> option float.
Variable haddock3_score : string -> string -> completed.
Variable read_pdb : string -> option (list string).
Variable identify_interface : string -> Dict.t string (list Z).
Variable coords_keys : string -> list (string * Z * string * string).
Variable scan_res : string.
Variable core : Z.

#[local] Abbreviation scan_residue' :=
  (scan_residue py_float haddock3_score read_pdb scan_res core).
#[local] Abbreviation scan_chain' :=
  (scan_chain py_float haddock3_score read_pdb scan_res core).
#[local] Abbreviation scan_chains' :=
  (scan_chains py_float haddock3_score read_pdb scan_res core).
#[local] Abbreviation scan_model' :=
  (scan_model py_float haddock3_score read_pdb identify_interface
     coords_keys scan_res core).

Lemma added_nothing rd st : added scan_res rd [] st st.
Proof.
  exists [], []. now rewrite !app_nil_r.
Qed.

Lemma added_trans rd v1 v2 st1 st2 st3 :
  added scan_res rd v1 st1 st2 -> added scan_res rd v2 st2 st3 ->
  added scan_res rd (v1 ++ v2)%list st1 st3.
Proof.
  intros (r1 & e1 & D1 & T1 & K1 & S1 & M1 & W1)
         (r2 & e2 & D2 & T2 & K2 & S2 & M2 & W2).
  exists (r1 ++ r2)%list, (e1 ++ e2)%list.
  rewrite D2, D1, T2, T1, !app_assoc. repeat split.
  - now rewrite map_app, filter_app, K1, K2.
  - unfold count in *. rewrite filter_app, !length_app. lia.
  - unfold count in *. rewrite filter_app, !length_app. lia.
  - unfold count in *. rewrite filter_app, !length_app. lia.
Qed.

Lemma scan_residue_added native n ori_score rd chain st res st' :
  scan_residue' native n ori_score rd chain st res = Ok st' ->
  added scan_res rd [(chain, res)] st st'.
Proof.
  unfold scan_residue. intro E. bind_inv E.
  unfold Dict.get in E0.
  destruct (Dict.lookup (res_key chain res) rd) as [o|] eqn:L;
    [|discriminate].
  injection E0 as <-.
  assert (D : differs scan_res rd (chain, res) = negb (o =? scan_res)%string)
    by (unfold differs; simpl; now rewrite L).
  destruct (o =? scan_res)%string eqn:Q.
  - injection E as <-. exists [], []. simpl. rewrite D, !app_nil_r.
    repeat split.
  - bind_inv E. bind_inv E. bind_inv E.
    destruct a1 as [[[[c1 c2] c3] c4] c5], n as [[[[n1 n2] n3] n4] n5].
    bind_inv E. injection E as <-.
    eexists [_], _. simpl. rewrite D. repeat split.
Qed.

Lemma scan_chain_added native n ori_score rd chain residues : forall st st',
  scan_chain' native n ori_score rd chain st residues = Ok st' ->
  added scan_res rd (map (pair chain) residues) st st'.
Proof.
  induction residues as [|res rest IH]; simpl; intros st st' E.
  - injection E as <-. apply added_nothing.
  - bind_inv E. apply scan_residue_added in E0. apply IH in E.
    exact (added_trans _ [_] _ _ _ _ E0 E).
Qed.

Lemma scan_chains_added native n ori_score rd interface chains :
  forall st st',
  scan_chains' native n ori_score rd interface st chains = Ok st' ->
  added scan_res rd (residues_of interface chains) st st'.
Proof.
  induction chains as [|chain rest IH]; simpl; intros st st' E.
  - injection E as <-. apply added_nothing.
  - bind_inv E. bind_inv E. unfold Dict.get in E0.
    destruct (Dict.lookup chain interface) as [rs|]; [|discriminate].
    injection E0 as <-. apply scan_chain_added in E1. apply IH in E.
    exact (added_trans _ _ _ _ _ _ E1 E).
Qed.

(** The shape of a successful pass over one model. *)
Lemma scan_model_shape st native st' :
  scan_model' st native = Ok st' ->
  let rd := resnames (coords_keys (rel_path native)) [] in
  let visited := interface_residues (identify_interface (rel_path native)) in
  exists rows evs,
    scan_data st' = rows /\
    trace st' =
      (trace st ++ EvScore (rel_path native) (sc_dir core) :: evs ++
       [EvWriteScan (alascan_fname native) (header native)
          (combine rows (add_zscores (map r_delta_score rows)))])%list /\
    map row_key rows = filter (differs scan_res rd) visited /\
    count is_score evs = List.length rows /\
    count is_mutate evs = List.length rows /\
    count is_write evs = 0%nat.
Proof.
  unfold scan_model. intro E. bind_inv E. bind_inv E. bind_inv E.
  injection E as <-. apply scan_chains_added in E2.
  destruct E2 as (rows & evs & D & T & K & S & M & W).
  simpl in D, T. exists rows, evs. simpl. rewrite D, T, <- app_assoc.
  simpl. repeat split; try assumption.
  now rewrite <- app_assoc.
Qed.

(** C8: a residue whose type is the scan target leaves the rows and the
    effects as they are and takes the native terms; over a model
    that is scanned to the end, the scorer is called once for the native
    structure and once per interface residue of another type, and the
    mutations are as many as those residues. *)
Theorem scan_reuses_native_for_target_type :
  (forall native n ori_score rd chain st res,
     Dict.lookup (res_key chain res) rd = Some scan_res ->
     scan_residue' native n ori_score rd chain st res =
       Ok (mk_state (Some n) (delta_ori_score st) (scan_data st) (trace st)))
  /\
  (forall st native st',
     scan_model' st native = Ok st' ->
     let rd := resnames (coords_keys (rel_path native)) [] in
     let visited :=
       interface_residues (identify_interface (rel_path native)) in
     exists evs,
       trace st' = (trace st ++ evs)%list /\
       count is_score evs =
         S (List.length (filter (differs scan_res rd) visited)) /\
       count is_mutate evs =
         List.length (filter (differs scan_res rd) visited)).
Proof.
  split.
  - intros native n ori_score rd chain st res L.
    unfold scan_residue, Dict.get. rewrite L. simpl.
    now rewrite String.eqb_refl.
  - intros st native st' E. apply scan_model_shape in E.
    destruct E as (rows & evs & D & T & K & S & M & W).
    eexists. split; [exact T|].
    unfold count in *. simpl. rewrite !filter_app, !length_app. simpl.
    rewrite <- K, length_map. lia.
Qed.

(** C9: the file written for a model has a row for each interface
    residue of another type than the target, in the order of the visit, and
    for no other: it has at most as many rows as there are interface
    residues and none for a residue of the target type; the file is the
    only one of results written for the model. *)
Theorem scan_writes_rows_for_other_types_only st native st' :
  scan_model' st native = Ok st' ->
  let rd := resnames (coords_keys (rel_path native)) [] in
  let visited := interface_residues (identify_interface (rel_path native)) in
  exists rows evs,
    trace st' =
      (trace st ++ evs ++
       [EvWriteScan (alascan_fname native) (header native) rows])%list /\
    count is_write evs = 0%nat /\
    map row_key (map fst rows) = filter (differs scan_res rd) visited /\
    (List.length rows <= List.length visited)%nat /\
    (forall cr, In cr visited -> differs scan_res rd cr = false ->
       ~ In cr (map row_key (map fst rows))).
Proof.
  intros E rd visited. apply scan_model_shape in E.
  destruct E as (rows & evs & D & T & K & S & M & W).
  exists (combine rows (add_zscores (map r_delta_score rows))),
         (EvScore (rel_path native) (sc_dir core) :: evs).
  assert (F : map fst (combine rows (add_zscores (map r_delta_score rows)))
              = rows)
    by (apply map_fst_combine; now rewrite add_zscores_length, length_map).
  rewrite F. repeat split.
  - exact T.
  - exact W.
  - exact K.
  - rewrite length_combine, add_zscores_length, length_map, Nat.min_id.
    rewrite <- (length_map row_key rows), K. apply filter_length_le.
  - intros cr I Df J. fold rd visited in K. rewrite K in J.
    apply filter_In in J as [_ J]. congruence.
Qed.
End ScanFacts.

(** C8, a witness: ALA 7 of chain B of the sample structure, scanned to
    ALA. *)
Lemma scan_reuses_native_for_target_type_witness :
  let n := (-10.5, -4, -2, 1.5, 900)%float in
  ScanRun.scan_residue Score.sample_float ScanRun.ex_scorer ScanRun.ex_read
    "ALA" 1 ScanRun.ex_model n (-12.5)%float
    (ScanRun.resnames (ScanRun.ex_coords "m.pdb") []) "B" ScanRun.start 7
  = Ok (ScanRun.mk_state (Some n) None [] []).
Proof.
  intro n.
  apply (proj1 (scan_reuses_native_for_target_type Score.sample_float
                  ScanRun.ex_scorer ScanRun.ex_read ScanRun.ex_interface
                  ScanRun.ex_coords "ALA" 1)).
  reflexivity.
Defined.

(** C9, a witness: the sample structure has two interface residues and
    its file has one row, for TYR 12 of chain A. *)
Lemma scan_writes_rows_for_other_types_only_witness :
  exists st' rows evs,
    ScanRun.scan_model Score.sample_float ScanRun.ex_scorer ScanRun.ex_read
      ScanRun.ex_interface ScanRun.ex_coords "ALA" 1 ScanRun.start
      ScanRun.ex_model = Ok st' /\
    ScanRun.trace st' =
      (evs ++ [ScanRun.EvWriteScan "scan_m.pdb.csv"
                 (ScanRun.header ScanRun.ex_model) rows])%list /\
    map ScanRun.row_key (map fst rows) = [("A", 12)] /\
    List.length (ScanRun.interface_residues (ScanRun.ex_interface "m.pdb"))
      = 2%nat.
Proof.
  destruct (ScanRun.scan_model Score.sample_float ScanRun.ex_scorer
              ScanRun.ex_read ScanRun.ex_interface ScanRun.ex_coords "ALA" 1
              ScanRun.start ScanRun.ex_model) as [st'|e] eqn:E.
  - destruct (scan_writes_rows_for_other_types_only Score.sample_float
                ScanRun.ex_scorer ScanRun.ex_read ScanRun.ex_interface
                ScanRun.ex_coords "ALA" 1 ScanRun.start ScanRun.ex_model
                st' E) as (rows & evs & T & _ & K & _).
    exists st', rows, evs. repeat split.
    + exact T.
    + exact K.
  - vm_compute in E. discriminate.
Defined.

(** ** [alascan_cluster_analysis] *)

Section SortFacts.
Import Cluster.

Lemma insert_row_perm a l : Permutation (insert_row a l) (a :: l).
Proof.
  induction l as [|b l IH]; simpl.
  - reflexivity.
  - destruct (row_le a b).
    + reflexivity.
    + rewrite IH. apply perm_swap.
Qed.

Lemma sort_values_perm l : Permutation (sort_values l) l.
Proof.
  induction l as [|a l IH]; simpl.
  - reflexivity.
  - rewrite insert_row_perm. now constructor.
Qed.

Lemma string_compare_flip s u :
  String.compare u s = CompOpp (String.compare s u).
Proof. apply String.compare_antisym. Qed.

Lemma row_le_total a b : row_le a b = false -> row_le b a = true.
Proof.
  unfold row_le, String.leb.
  rewrite (string_compare_flip (c_chain a) (c_chain b)).
  rewrite (string_compare_flip (c_resnum a) (c_resnum b)).
  destruct (String.compare (c_chain a) (c_chain b)); simpl;
    try discriminate; try reflexivity.
  destruct (String.compare (c_resnum a) (c_resnum b)); simpl;
    try discriminate; reflexivity.
Qed.

Lemma insert_row_sorted a l :
  LocallySorted (fun x y => row_le x y = true) l ->
  LocallySorted (fun x y => row_le x y = true) (insert_row a l).
Proof.
  induction 1 as [|b|b c l S IH L]; simpl.
  - constructor.
  - destruct (row_le a b) eqn:Q.
    + now repeat constructor.
    + repeat constructor. now apply row_le_total.
  - destruct (row_le a b) eqn:Q.
    + now repeat constructor.
    + simpl in IH. destruct (row_le a c) eqn:Q'.
      * constructor; [assumption|]. now apply row_le_total.
      * now constructor.
Qed.

(** The rows written are in the order of the two text columns. *)
Lemma sort_values_sorted l :
  LocallySorted (fun x y => row_le x y = true) (sort_values l).
Proof.
  induction l as [|a l IH]; simpl.
  - constructor.
  - now apply insert_row_sorted.
Qed.
End SortFacts.

Section HistoryFacts.
Import Cluster ClusterSpec.

Lemma hist_pop_snoc k h c rs :
  hist_pop k (h ++ [(c, rs)])%list =
    (hist_pop k h + (if keqb c k then 1 else 0))%nat.
Proof.
  unfold hist_pop, hist_of. rewrite filter_app, length_app. cbn [filter fst].
  destruct (keqb c k); reflexivity.
Qed.

Lemma hist_rows_snoc k h c rs :
  hist_rows k (h ++ [(c, rs)])%list =
    (hist_rows k h ++ (if keqb c k then rs else []))%list.
Proof.
  unfold hist_rows, hist_of. rewrite filter_app, flat_map_app.
  cbn [filter fst].
  destruct (keqb c k); simpl; now rewrite ?app_nil_r.
Qed.

Lemma hist_rows_none k h : hist_pop k h = 0%nat -> hist_rows k h = [].
Proof.
  unfold hist_pop, hist_rows. intro E.
  apply length_zero_iff_nil in E. now rewrite E.
Qed.

Lemma entry_of_snoc occ r :
  entry_of (occ ++ [r])%list =
    Some match entry_of occ with
         | None => first_entry r
         | Some e => add_entry e r
         end.
Proof.
  destruct occ as [|r0 occ]; simpl; [reflexivity|].
  now rewrite fold_left_app.
Qed.

Lemma occurrences_snoc ident rows r :
  occurrences ident (rows ++ [r])%list =
    (occurrences ident rows ++
     (if (ident_of r =? ident)%string then [r] else []))%list.
Proof.
  unfold occurrences. rewrite filter_app. simpl.
  now destruct (ident_of r =? ident)%string.
Qed.

(** One more row of the file in reading. *)
Lemma add_row_agrees h c rs clt_scan cl_pops r :
  agrees (h ++ [(c, rs)])%list clt_scan cl_pops ->
  exists clt_scan',
    add_row c clt_scan r = Ok clt_scan' /\
    agrees (h ++ [(c, rs ++ [r])%list])%list clt_scan' cl_pops.
Proof.
  intro A. unfold add_row, get_key.
  destruct (A c) as [_ Ac]. rewrite hist_pop_snoc, keqb_refl in Ac.
  destruct (Dict.lookup c clt_scan) as [d|] eqn:L; [|lia].
  destruct Ac as [_ Ad]. simpl.
  set (e' := match Dict.lookup (ident_of r) d with
             | Some e => add_entry e r
             | None => first_entry r
             end).
  exists (Dict.set c (Dict.set (ident_of r) e' d) clt_scan). split.
  { unfold e'. now destruct (Dict.lookup (ident_of r) d). }
  intro k. destruct (A k) as [Ap Ak]. split.
  { rewrite hist_pop_snoc in *. exact Ap. }
  destruct (keqb c k) eqn:Q.
  - apply keqb_eq in Q. subst k. rewrite lookup_set_same. split.
    { rewrite hist_pop_snoc, keqb_refl. lia. }
    intro ident.
    replace (hist_rows c (h ++ [(c, (rs ++ [r])%list)])%list)
      with (hist_rows c (h ++ [(c, rs)])%list ++ [r])%list
      by (rewrite !hist_rows_snoc, keqb_refl; now rewrite app_assoc).
    rewrite occurrences_snoc.
    destruct (ident_of r =? ident)%string eqn:I.
    + apply String.eqb_eq in I. subst ident.
      rewrite lookup_set_same, entry_of_snoc, <- Ad. reflexivity.
    + rewrite app_nil_r, <- Ad. apply lookup_set_other.
      intro N. subst ident. now rewrite String.eqb_refl in I.
  - assert (N : k <> c)
      by (intro N; subst k; now rewrite keqb_refl in Q).
    rewrite (lookup_set_other _ _ _ _ N).
    rewrite hist_pop_snoc, hist_rows_snoc, Q in *. exact Ak.
Qed.

Lemma add_rows_agrees h c rows : forall rs clt_scan cl_pops,
  agrees (h ++ [(c, rs)])%list clt_scan cl_pops ->
  exists clt_scan',
    add_rows c clt_scan rows = Ok clt_scan' /\
    agrees (h ++ [(c, rs ++ rows)%list])%list clt_scan' cl_pops.
Proof.
  induction rows as [|r rows IH]; simpl; intros rs clt_scan cl_pops A.
  - exists clt_scan. now rewrite app_nil_r.
  - destruct (add_row_agrees _ _ _ _ _ r A) as (s1 & E1 & A1).
    rewrite E1. simpl.
    destruct (IH _ _ _ A1) as (s2 & E2 & A2).
    exists s2. split; [exact E2|]. now rewrite <- app_assoc in A2.
Qed.

(** The bookkeeping at the head of the loop body: the cluster is entered
    or its population grows by one. *)
Lemma enter_agrees h c clt_scan cl_pops :
  agrees h clt_scan cl_pops ->
  exists clt_scan' cl_pops',
    match Dict.lookup c clt_scan with
    | None => Ok (Dict.set c [] clt_scan, Dict.set c 1 cl_pops)
    | Some _ =>
        n <- get_key c cl_pops ;;
        Ok (clt_scan, Dict.set c (n + 1) cl_pops)
    end = Ok (clt_scan', cl_pops') /\
    agrees (h ++ [(c, [])])%list clt_scan' cl_pops'.
Proof.
  intro A. destruct (A c) as [Pc Sc].
  destruct (Dict.lookup c clt_scan) as [d|] eqn:L.
  - destruct Sc as [Nz Sd]. unfold get_key. rewrite Pc.
    destruct (Nat.eqb_spec (hist_pop c h) 0) as [Z0|_]; [contradiction|].
    simpl. do 2 eexists. split; [reflexivity|].
    intro k. destruct (A k) as [Pk Sk].
    rewrite hist_pop_snoc, hist_rows_snoc.
    destruct (keqb c k) eqn:Q.
    + apply keqb_eq in Q. subst k. rewrite lookup_set_same, L. split.
      * destruct (Nat.eqb_spec (hist_pop c h + 1) 0); [lia|].
        f_equal. lia.
      * split; [lia|]. now rewrite app_nil_r.
    + assert (N : k <> c)
        by (intro N; subst k; now rewrite keqb_refl in Q).
      rewrite (lookup_set_other _ _ _ _ N), Nat.add_0_r, app_nil_r.
      now split.
  - do 2 eexists. split; [reflexivity|].
    intro k. destruct (A k) as [Pk Sk].
    rewrite hist_pop_snoc, hist_rows_snoc.
    destruct (keqb c k) eqn:Q.
    + apply keqb_eq in Q. subst k. rewrite !lookup_set_same, Sc. split.
      * reflexivity.
      * split; [lia|]. intro ident.
        now rewrite (hist_rows_none _ _ Sc).
    + assert (N : k <> c)
        by (intro N; subst k; now rewrite keqb_refl in Q).
      rewrite !(lookup_set_other _ _ _ _ N), Nat.add_0_r, app_nil_r.
      now split.
Qed.

Section WithFiles.
Variable files : csv_store.

#[local] Abbreviation history_of := (history_of files).

Lemma visit_agrees h clt_scan cl_pops m :
  agrees h clt_scan cl_pops ->
  files (alascan_fname m) <> None ->
  exists st',
    visit files (clt_scan, cl_pops) m = Ok st' /\
    agrees (h ++ history_of [m])%list (fst st') (snd st').
Proof.
  intros A P. unfold visit.
  destruct (enter_agrees _ (cl_id_of m) _ _ A) as (s1 & p1 & E1 & A1).
  rewrite E1. simpl.
  unfold history_of, rows_of. simpl.
  destruct (files (alascan_fname m)) as [rows|]; [|contradiction]. simpl.
  destruct (add_rows_agrees _ _ rows _ _ _ A1) as (s2 & E2 & A2).
  rewrite E2. simpl. eexists. split; [reflexivity|]. exact A2.
Qed.

Lemma visit_all_agrees models : forall h st,
  agrees h (fst st) (snd st) ->
  all_read files models ->
  exists st',
    visit_all files st models = Ok st' /\
    agrees (h ++ history_of models)%list (fst st') (snd st').
Proof.
  induction models as [|m rest IH]; simpl; intros h [s p] A P.
  - eexists. split; [reflexivity|]. now rewrite app_nil_r.
  - simpl in A. destruct (visit_agrees _ _ _ m A) as (st1 & E1 & A1).
    { apply P. now left. }
    rewrite E1. simpl.
    destruct (IH _ _ A1) as (st2 & E2 & A2).
    { intros m' I. apply P. now right. }
    exists st2. split; [exact E2|].
    now rewrite <- app_assoc in A2.
Qed.

Lemma visit_ok_present st m st' :
  visit files st m = Ok st' -> files (alascan_fname m) <> None.
Proof.
  unfold visit. destruct st as [s p]. intro E. bind_inv E.
  destruct a as [s1 p1]. bind_inv E.
  destruct (files (alascan_fname m)); [discriminate|discriminate].
Qed.

Lemma visit_all_ok_present models : forall st st',
  visit_all files st models = Ok st' -> all_read files models.
Proof.
  induction models as [|m rest IH]; simpl; intros st st' E m' I.
  - contradiction.
  - bind_inv E. destruct I as [<-|I].
    + eapply visit_ok_present; eauto.
    + eapply IH; eauto.
Qed.

Lemma hist_pop_history k models :
  Z.of_nat (hist_pop k (history_of models)) = population k models.
Proof.
  unfold population, members, hist_pop, hist_of, ClusterSpec.history_of.
  f_equal.
  induction models as [|m rest IH]; [reflexivity|].
  cbn [map filter fst].
  destruct (keqb (cl_id_of m) k); cbn [List.length]; congruence.
Qed.

Lemma hist_rows_history k models :
  hist_rows k (history_of models) = cluster_rows files k models.
Proof.
  unfold cluster_rows, members, hist_rows, hist_of, ClusterSpec.history_of.
  induction models as [|m rest IH]; [reflexivity|].
  cbn [map filter fst].
  destruct (keqb (cl_id_of m) k); cbn [flat_map snd]; congruence.
Qed.

Lemma agrees_start : agrees [] [] [].
Proof. intro k. simpl. auto. Qed.
End WithFiles.
End HistoryFacts.

Section AverageFacts.
Import Cluster ClusterSpec.

Lemma fold_add_entry rs : forall e0,
  let e := fold_left add_entry rs e0 in
  sum_score e = fold_left (fun a x => a + delta_score x)%float rs (sum_score e0) /\
  sum_vdw e = fold_left (fun a x => a + delta_vdw x)%float rs (sum_vdw e0) /\
  sum_elec e = fold_left (fun a x => a + delta_elec x)%float rs (sum_elec e0) /\
  sum_desolv e =
    fold_left (fun a x => a + delta_desolv x)%float rs (sum_desolv e0) /\
  sum_bsa e = fold_left (fun a x => a + delta_bsa x)%float rs (sum_bsa e0) /\
  frac_pr e = frac_pr e0 + Z.of_nat (List.length rs).
Proof.
  induction rs as [|r rs IH]; intro e0; cbv zeta.
  - cbn [fold_left List.length]. repeat split; try reflexivity. lia.
  - specialize (IH (add_entry e0 r)). cbv zeta in IH.
    cbn [fold_left List.length] in *.
    destruct IH as (H1 & H2 & H3 & H4 & H5 & H6).
    rewrite H1, H2, H3, H4, H5, H6. cbn [add_entry sum_score sum_vdw
      sum_elec sum_desolv sum_bsa frac_pr].
    repeat split; try reflexivity. lia.
Qed.

(** An entry holds the sums over the rows of its key and their count. *)
Lemma entry_of_sums occ e :
  entry_of occ = Some e ->
  sum_score e = sum_of delta_score occ /\
  sum_vdw e = sum_of delta_vdw occ /\
  sum_elec e = sum_of delta_elec occ /\
  sum_desolv e = sum_of delta_desolv occ /\
  sum_bsa e = sum_of delta_bsa occ /\
  frac_pr e = Z.of_nat (List.length occ) /\
  1 <= frac_pr e.
Proof.
  destruct occ as [|r rs]; simpl; [discriminate|]. intros [= <-].
  destruct (fold_add_entry rs (first_entry r)) as (H1 & H2 & H3 & H4 & H5 & H6).
  cbv zeta in *. rewrite H1, H2, H3, H4, H5, H6.
  cbn [first_entry sum_score sum_vdw sum_elec sum_desolv sum_bsa frac_pr
       List.length].
  repeat split; try reflexivity; lia.
Qed.

Lemma summarise_all_in cl_pops clt_scan : forall written kd,
  summarise_all cl_pops clt_scan = Ok written ->
  In kd clt_scan ->
  exists f, summarise cl_pops kd = Ok f /\ In f written.
Proof.
  induction clt_scan as [|kd0 rest IH]; simpl; intros written kd E I.
  - contradiction.
  - bind_inv E. bind_inv E. injection E as <-. destruct I as [<-|I].
    + exists a. split; [assumption|now left].
    + destruct (IH _ _ E1 I) as (f & S & J). exists f. split;
        [assumption|now right].
Qed.

Lemma averages_in cl_pops k d : forall rows ident e,
  averages cl_pops k d = Ok rows ->
  In (ident, e) d ->
  exists row, average cl_pops k ident e = Ok row /\ In row rows.
Proof.
  induction d as [|[i0 e0] rest IH]; simpl; intros rows ident e E I.
  - contradiction.
  - bind_inv E. bind_inv E. injection E as <-. destruct I as [[= <- <-]|I].
    + exists a. split; [assumption|now left].
    + destruct (IH _ _ _ E1 I) as (row & S & J). exists row. split;
        [assumption|now right].
Qed.

Lemma in_combine_same_length {A B} (l : list A) : forall (l' : list B) a,
  List.length l' = List.length l -> In a l -> exists b, In (a, b) (combine l l').
Proof.
  induction l as [|x l IH]; intros [|y l'] a E I; simpl in *;
    try contradiction; try discriminate.
  destruct I as [<-|I].
  - exists y. now left.
  - injection E as E. destruct (IH _ _ E I) as (b & J). exists b. now right.
Qed.

Lemma with_zscores_in rows row :
  In row rows ->
  exists row', In row' (with_zscores rows) /\ same_but_z row row'.
Proof.
  intro I. unfold with_zscores.
  destruct (in_combine_same_length rows (add_zscores (map avg_score rows)) row)
    as (z & J).
  - now rewrite add_zscores_length, length_map.
  - exact I.
  - exists (set_z row z). split.
    + apply in_map_iff. now exists (row, z).
    + reflexivity.
Qed.

(** The row of a key reaches the file of its cluster, up to the z-score. *)
Lemma summarise_row cl_pops k d fname rows ident e :
  summarise cl_pops (k, d) = Ok (fname, rows) ->
  In (ident, e) d ->
  fname = scan_clt_filename k /\
  exists row0 row,
    average cl_pops k ident e = Ok row0 /\ In row rows /\
    same_but_z row0 row.
Proof.
  unfold summarise. intros E I.
  bind_inv E. injection E as <- <-. split; [reflexivity|].
  destruct (averages_in _ _ _ _ _ _ E0 I) as (row0 & Av & J).
  destruct (with_zscores_in _ _ J) as (row & J' & Z).
  exists row0, row. repeat split; try assumption.
  apply (Permutation_in _ (Permutation_sym (sort_values_perm _))). exact J'.
Qed.

Lemma average_fields cl_pops k pop ident e row0 row :
  Dict.lookup k cl_pops = Some pop ->
  average cl_pops k ident e = Ok row0 -> same_but_z row0 row ->
  let f := Pandas.float_of_int (frac_pr e) in
  full_resname row = ident /\
  avg_score row = (sum_score e / f)%float /\
  avg_vdw row = (sum_vdw e / f)%float /\
  avg_elec row = (sum_elec e / f)%float /\
  avg_desolv row = (sum_desolv e / f)%float /\
  avg_bsa row = (sum_bsa e / f)%float /\
  frac_pres row = (f / Pandas.float_of_int pop)%float.
Proof.
  unfold average, same_but_z, set_z, get_key. intros P E Z. rewrite P in E.
  bind_inv E. bind_inv E. bind_inv E. simpl in E. injection E as <-.
  simpl in Z. injection Z as Z1 Z2 Z3 Z4 Z5 Z6 Z7 Z8 Z9 Z10.
  repeat split; symmetry; assumption.
Qed.
End AverageFacts.

Section ClusterClaims.
Import Cluster ClusterSpec.

Lemma visit_all_app files l1 : forall l2 st,
  visit_all files st (l1 ++ l2)%list =
    (st' <- visit_all files st l1 ;; visit_all files st' l2).
Proof.
  induction l1 as [|m l1 IH]; simpl; intros l2 st; [reflexivity|].
  destruct (visit files st m); simpl; [apply IH | reflexivity].
Qed.

Lemma split_hyphens s : forall cur,
  List.length (PyStr.split_from "-" 0 cur s) = S (hyphens s).
Proof.
  assert (P : forall s, prefix "" s = true) by (now intros [|? ?]).
  induction s as [|c s IH]; intro cur; [reflexivity|].
  cbn [PyStr.split_from hyphens prefix String.length Nat.sub].
  destruct (ascii_dec "-" c) as [<-|N].
  - rewrite P. cbn [List.length]. now rewrite IH.
  - assert (Q : Ascii.eqb c "-" = false)
      by (apply Ascii.eqb_neq; congruence).
    rewrite Q. apply IH.
Qed.

Lemma hyphens_app a b : hyphens (a ++ b) = (hyphens a + hyphens b)%nat.
Proof.
  induction a as [|c a IH]; simpl; [reflexivity|]. rewrite IH. lia.
Qed.

Lemma average_total cl_pops k pop r e :
  Dict.lookup k cl_pops = Some pop ->
  exists row, average cl_pops k (ident_of r) e = Ok row.
Proof.
  unfold average, get_key. intros ->.
  assert (L : (3 <= List.length (PyStr.split "-" (ident_of r)))%nat).
  { unfold PyStr.split. rewrite split_hyphens. unfold ident_of.
    rewrite !hyphens_app. simpl. lia. }
  destruct (PyStr.split "-" (ident_of r)) as [|p0 [|p1 [|p2 ps]]];
    simpl in L; try lia.
  simpl. eexists. reflexivity.
Qed.

Lemma averages_total cl_pops k pop d :
  Dict.lookup k cl_pops = Some pop ->
  (forall ident e, In (ident, e) d -> exists r, ident = ident_of r) ->
  exists rows, averages cl_pops k d = Ok rows.
Proof.
  intro P. induction d as [|[ident e] d IH]; simpl; intro W.
  - now eexists.
  - destruct (W ident e) as (r & ->); [now left|].
    destruct (average_total _ _ _ r e P) as (row & ->).
    destruct IH as (rows & ->); [intros i x I; apply (W i x); now right|].
    simpl. now eexists.
Qed.

Lemma in_lookup_some {K V} `{EqKeyLaws K} (d : Dict.t K V) k v :
  In (k, v) d -> exists v', Dict.lookup k d = Some v'.
Proof.
  induction d as [|[k0 v0] d IH]; simpl; [contradiction|].
  intros [[= -> ->]|I].
  - rewrite keqb_refl. now eexists.
  - destruct (keqb k k0); [now eexists | auto].
Qed.

Lemma occurrences_ident ident rows r l :
  occurrences ident rows = r :: l -> ident = ident_of r.
Proof.
  unfold occurrences. intro E.
  assert (I : In r (filter (fun x => (ident_of x =? ident)%string) rows))
    by (rewrite E; now left).
  apply filter_In in I as [_ I]. apply String.eqb_eq in I. now symmetry.
Qed.

Section Keys.
Context {K V : Type} `{EqKeyLaws K}.
Implicit Types (d : Dict.t K V).

Lemma set_keys d k v :
  Dict.keys (Dict.set k v d) =
    if existsb (keqb k) (Dict.keys d) then Dict.keys d
    else (Dict.keys d ++ [k])%list.
Proof.
  induction d as [|[k0 v0] d IH]; simpl; [reflexivity|].
  destruct (keqb k k0) eqn:Q; simpl.
  - apply keqb_eq in Q. now subst.
  - unfold Dict.keys in *. rewrite IH.
    now destruct (existsb (keqb k) (map fst d)).
Qed.

Lemma set_keys_nodup d k v :
  NoDup (Dict.keys d) -> NoDup (Dict.keys (Dict.set k v d)).
Proof.
  intro N. rewrite set_keys.
  destruct (existsb (keqb k) (Dict.keys d)) eqn:E; [assumption|].
  apply NoDup_app; [assumption | repeat constructor; auto | ].
  intros x I [Q|[]]. subst x.
  assert (T : existsb (keqb k) (Dict.keys d) = true)
    by (apply existsb_exists; exists k; split; [assumption|apply keqb_refl]).
  congruence.
Qed.

Lemma nodup_lookup d k v :
  NoDup (Dict.keys d) -> In (k, v) d -> Dict.lookup k d = Some v.
Proof.
  induction d as [|[k0 v0] d IH]; simpl; [contradiction|].
  intros N I. inversion N as [|? ? N0 N1]; subst.
  destruct I as [[= -> ->]|I].
  - now rewrite keqb_refl.
  - rewrite keqb_neq; [now apply IH|].
    intros ->. apply N0. apply in_map_iff. now exists (k0, v).
Qed.
End Keys.

Lemma add_rows_nodup c rows : forall clt_scan clt_scan',
  add_rows c clt_scan rows = Ok clt_scan' ->
  NoDup (Dict.keys clt_scan) -> NoDup (Dict.keys clt_scan').
Proof.
  induction rows as [|r rows IH]; simpl; intros s s' E N.
  - now injection E as <-.
  - bind_inv E. apply (IH _ _ E). unfold add_row in E0. bind_inv E0.
    destruct (Dict.lookup (ident_of r) a0); injection E0 as <-;
      now apply set_keys_nodup.
Qed.

Lemma visit_all_nodup files models : forall st st',
  visit_all files st models = Ok st' ->
  NoDup (Dict.keys (fst st)) -> NoDup (Dict.keys (fst st')).
Proof.
  induction models as [|m rest IH]; simpl; intros st st' E N.
  - now injection E as <-.
  - bind_inv E. apply (IH _ _ E). clear E IH.
    unfold visit in E0. destruct st as [s p]. bind_inv E0.
    destruct a0 as [s1 p1]. bind_inv E0. bind_inv E0. injection E0 as <-.
    simpl in *. apply (add_rows_nodup _ _ _ _ E2).
    destruct (Dict.lookup (cl_id_of m) s).
    + bind_inv E. now injection E as <- <-.
    + injection E as <- <-. now apply set_keys_nodup.
Qed.

(** With the state agreeing with a history, the second loop goes through. *)
Lemma summarise_all_total h clt_scan cl_pops :
  agrees h clt_scan cl_pops -> NoDup (Dict.keys clt_scan) ->
  forall part, incl part clt_scan ->
  exists written, summarise_all cl_pops part = Ok written.
Proof.
  intros A N part. induction part as [|[k d] part IH]; intro I.
  - now eexists.
  - destruct IH as (w & Ew); [intros x J; apply I; now right|].
    cbn [summarise_all]. rewrite Ew.
    assert (L : Dict.lookup k clt_scan = Some d)
      by (apply nodup_lookup; [assumption | apply I; now left]).
    destruct (A k) as [P S]. rewrite L in S. destruct S as [Nz S].
    destruct (Nat.eqb_spec (hist_pop k h) 0) as [|_]; [contradiction|].
    unfold summarise.
    destruct (averages_total _ _ _ d P) as (rows & ->).
    + intros ident e J.
      destruct (in_lookup_some d ident e J) as (e' & Le).
      rewrite S in Le. unfold entry_of in Le.
      destruct (occurrences ident (hist_rows k h)) as [|r l] eqn:O;
        [discriminate|].
      exists r. eapply occurrences_ident; eauto.
    + simpl. now eexists.
Qed.

(** With the rows of every file read, the call returns. *)
Lemma analysis_total files models :
  all_read files models -> returns files models.
Proof.
  intro P. unfold returns, alascan_cluster_analysis.
  destruct (visit_all_agrees files models [] ([], []) (agrees_start) P)
    as ([s p] & E & A).
  rewrite E. simpl in *.
  destruct (summarise_all_total _ _ _ A) with (part := s) as (w & ->).
  - apply (visit_all_nodup _ _ _ _ E). constructor.
  - apply incl_refl.
  - simpl. now eexists.
Qed.

(** C1: for every cluster of the result and every key in it, the summary
    of the cluster has a row of that key in which each averaged delta is
    the sum of that delta over the rows of the key, in reading order,
    divided by their number, and fraction-present is that number divided
    by the number of models of the cluster. *)
Theorem cluster_average_and_fraction files models clt_scan written :
  alascan_cluster_analysis files models = Ok (clt_scan, written) ->
  forall k d ident e,
    Dict.lookup k clt_scan = Some d -> Dict.lookup ident d = Some e ->
    let occ := occurrences ident (cluster_rows files k models) in
    let count := Pandas.float_of_int (Z.of_nat (List.length occ)) in
    let pop := Pandas.float_of_int (population k models) in
    (1 <= List.length occ)%nat /\
    frac_pr e = Z.of_nat (List.length occ) /\
    exists rows row,
      In (scan_clt_filename k, rows) written /\ In row rows /\
      full_resname row = ident /\
      avg_score row = (sum_of delta_score occ / count)%float /\
      avg_vdw row = (sum_of delta_vdw occ / count)%float /\
      avg_elec row = (sum_of delta_elec occ / count)%float /\
      avg_desolv row = (sum_of delta_desolv occ / count)%float /\
      avg_bsa row = (sum_of delta_bsa occ / count)%float /\
      frac_pres row = (count / pop)%float.
Proof.
  unfold alascan_cluster_analysis. intros E k d ident e Lk Li.
  bind_inv E. destruct a as [s p]. bind_inv E. injection E as <- <-.
  assert (P := visit_all_ok_present _ _ _ _ E0).
  destruct (visit_all_agrees files models [] ([], []) agrees_start P)
    as (st' & E' & A).
  rewrite E0 in E'. injection E' as <-. simpl in A.
  destruct (A k) as [Pk Sk]. rewrite Lk in Sk. destruct Sk as [Nz Sd].
  destruct (Nat.eqb_spec (hist_pop k (history_of files models)) 0) as [|_];
    [contradiction|].
  rewrite hist_pop_history in Pk.
  specialize (Sd ident). rewrite Li, hist_rows_history in Sd.
  symmetry in Sd.
  destruct (entry_of_sums _ _ Sd) as (S1 & S2 & S3 & S4 & S5 & F & F1).
  cbv zeta. split; [lia|]. split; [exact F|].
  destruct (summarise_all_in _ _ _ _ E1 (lookup_in _ _ _ Lk))
    as ([fname rows] & Sm & J).
  destruct (summarise_row _ _ _ _ _ _ _ Sm (lookup_in _ _ _ Li))
    as (-> & row0 & row & Av & Jr & Z).
  destruct (average_fields _ _ _ _ _ _ _ Pk Av Z)
    as (G0 & G1 & G2 & G3 & G4 & G5 & G6).
  exists rows, row. rewrite <- F, <- S1, <- S2, <- S3, <- S4, <- S5.
  repeat split; assumption.
Qed.
End ClusterClaims.

(** C1, a witness: two structures of cluster 1, the key A-12-ALA in the
    file of one of them with [delta_score] 2.0: the averaged delta is 2.0
    and fraction-present is 0.5. *)
Lemma cluster_average_and_fraction_witness :
  exists clt_scan written rows row,
    Cluster.alascan_cluster_analysis ClusterSpec.two_files
      ClusterSpec.two_models = Ok (clt_scan, written) /\
    In ("scan_clt_1.csv", rows) written /\ In row rows /\
    Cluster.full_resname row = "A-12-ALA" /\
    Cluster.avg_score row = 2%float /\
    Cluster.frac_pres row = 0.5%float.
Proof.
  destruct (Cluster.alascan_cluster_analysis ClusterSpec.two_files
              ClusterSpec.two_models) as [[clt_scan written]|x] eqn:E;
    [|vm_compute in E; discriminate].
  assert (Lk : exists d e,
             Dict.lookup (Cluster.KInt 1) clt_scan = Some d /\
             Dict.lookup "A-12-ALA" d = Some e).
  { vm_compute in E. injection E as <- _. do 2 eexists. split; reflexivity. }
  destruct Lk as (d & e & Lk & Li).
  destruct (cluster_average_and_fraction _ _ _ _ E _ _ _ _ Lk Li)
    as (_ & _ & rows & row & J & Jr & G0 & G1 & _ & _ & _ & _ & G6).
  exists clt_scan, written, rows, row.
  split; [reflexivity|]. split; [exact J|]. split; [exact Jr|].
  split; [exact G0|]. split.
  - rewrite G1. vm_compute. reflexivity.
  - rewrite G6. vm_compute. reflexivity.
Defined.

Section ClusterErrors.
Import Cluster ClusterSpec.

(** C4 fails on the residues 2, 10 and 1 of one chain: the column
    [resnum] of the summary holds the text cut out of the key, the rows
    are sorted by that text, and the file has them in the order 1, 10, 2.
    For every summary the rows are in the order of the two text columns. *)
Theorem summary_rows_sorted_as_text :
  (exists clt_scan rows,
     alascan_cluster_analysis one_file one_model =
       Ok (clt_scan, [("scan_clt_-.csv", rows)]) /\
     map c_resnum rows = ["1"; "10"; "2"]) /\
  (forall clt_data,
     LocallySorted (fun a b => row_le a b = true) (sort_values clt_data)).
Proof.
  split.
  - do 2 eexists. split; vm_compute; reflexivity.
  - apply sort_values_sorted.
Qed.

(** C5, as the code has it: a model whose file is absent, after models
    whose files were read, ends the call with FileNotFoundError for that
    file, so that no summary is written. *)
Theorem absent_file_raises files pre m post :
  all_read files pre ->
  files (alascan_fname m) = None ->
  alascan_cluster_analysis files (pre ++ m :: post)%list =
    Raise (FileNotFoundError (alascan_fname m)).
Proof.
  intros P N. unfold alascan_cluster_analysis.
  rewrite visit_all_app.
  destruct (visit_all_agrees files pre [] ([], []) agrees_start P)
    as ([s p] & E & A).
  rewrite E. simpl in A. cbn [bind visit_all]. unfold visit.
  destruct (enter_agrees _ (cl_id_of m) _ _ A) as (s1 & p1 & E1 & _).
  rewrite E1, N. reflexivity.
Qed.
End ClusterErrors.

(** C5, a witness: the second of two models has no file. *)
Lemma absent_file_raises_witness :
  Cluster.alascan_cluster_analysis ClusterSpec.lost_file
    ClusterSpec.two_models = Raise (FileNotFoundError "scan_m2.pdb.csv").
Proof.
  apply (absent_file_raises ClusterSpec.lost_file
           [Cluster.mk_model (Some (Cluster.KInt 1)) "m1.pdb"]
           (Cluster.mk_model (Some (Cluster.KInt 1)) "m2.pdb") []).
  - intros m [<-|[]]. discriminate.
  - reflexivity.
Defined.

(** C5, as the specification words it, fails: with the file of the second
    model absent the call does not return. *)
Lemma absent_file_is_not_tolerated :
  ClusterSpec.lost_file "scan_m2.pdb.csv" = None /\
  ~ ClusterSpec.returns ClusterSpec.lost_file ClusterSpec.two_models.
Proof.
  split; [reflexivity|]. intros (r & E). vm_compute in E. discriminate.
Qed.

(** * Further properties *)

(** ** [calc_score]: the lines that count *)

Section ScoreExtra.
Import Score ScoreSpec.
Variable py_float : string -> option float.

Lemma read_line_other st ln :
  relevant ln = false -> read_line py_float st ln = Ok st.
Proof.
  unfold relevant, read_line. intro R.
  apply orb_false_elim in R as [-> ->]. reflexivity.
Qed.

Lemma read_lines_filter out : forall st,
  read_lines py_float st out = read_lines py_float st (filter relevant out).
Proof.
  induction out as [|ln rest IH]; intro st; [reflexivity|].
  cbn [filter]. destruct (relevant ln) eqn:R.
  - cbn [read_lines]. destruct (read_line py_float st ln); simpl; auto.
  - cbn [read_lines]. rewrite (read_line_other _ _ R). simpl. apply IH.
Qed.

(** X1: the result depends on the report only through the exit code and
    the lines that start with one of the two prefixes, in their order:
    every other line is passed over. *)
Theorem calc_score_reads_prefixed_lines_only (p q : completed) :
  returncode p = returncode q ->
  filter relevant (report_lines p) = filter relevant (report_lines q) ->
  calc_score py_float p = calc_score py_float q.
Proof.
  unfold calc_score, report_lines. intros -> F.
  destruct (negb (returncode q =? 0)); [reflexivity|].
  rewrite (read_lines_filter (PyStr.split linesep (stdout p))).
  rewrite (read_lines_filter (PyStr.split linesep (stdout q))).
  now rewrite F.
Qed.

Lemma read_line_score_set st ln st' :
  read_line py_float st ln = Ok st' ->
  PyStr.startswith ln score_prefix = true ->
  exists s, score_of_line py_float ln = Ok s /\ score st' = Some s.
Proof.
  unfold read_line, score_of_line. intros E S. rewrite S in E.
  bind_inv E. bind_inv E0. bind_inv E0. injection E0 as <-.
  rewrite E1. simpl. rewrite E2. exists a1. split; [reflexivity|].
  destruct (PyStr.startswith ln terms_prefix).
  - repeat bind_inv E. now injection E as <-.
  - now injection E as <-.
Qed.

Lemma read_line_terms_set st ln st' :
  read_line py_float st ln = Ok st' ->
  PyStr.startswith ln terms_prefix = true ->
  exists v e d b,
    field py_float "vdw=" ln = Ok v /\ field py_float "elec=" ln = Ok e /\
    field py_float "desolv=" ln = Ok d /\ field py_float "bsa=" ln = Ok b /\
    vdw st' = Some v /\ elec st' = Some e /\
    desolv st' = Some d /\ bsa st' = Some b.
Proof.
  unfold read_line. intros E T. rewrite T in E.
  bind_inv E. bind_inv E. bind_inv E. bind_inv E. bind_inv E.
  injection E as <-. exists a0, a1, a2, a3. repeat split; assumption.
Qed.

Lemma read_line_terms_kept st ln st' :
  read_line py_float st ln = Ok st' ->
  PyStr.startswith ln terms_prefix = false ->
  vdw st' = vdw st /\ elec st' = elec st /\
  desolv st' = desolv st /\ bsa st' = bsa st.
Proof.
  unfold read_line. intros E T. rewrite T in E.
  bind_inv E. injection E as <-.
  destruct (PyStr.startswith ln score_prefix).
  - repeat bind_inv E0. injection E0 as <-. repeat split.
  - injection E0 as <-. repeat split.
Qed.

(** After the loop each name holds what the last line of its prefix gave,
    or what it held before when there is no such line. *)
Lemma read_lines_last out : forall st st',
  read_lines py_float st out = Ok st' ->
  match last_with score_prefix out with
  | Some ln =>
      exists s, score_of_line py_float ln = Ok s /\ score st' = Some s
  | None => score st' = score st
  end /\
  match last_with terms_prefix out with
  | Some ln =>
      exists v e d b,
        field py_float "vdw=" ln = Ok v /\
        field py_float "elec=" ln = Ok e /\
        field py_float "desolv=" ln = Ok d /\
        field py_float "bsa=" ln = Ok b /\
        vdw st' = Some v /\ elec st' = Some e /\
        desolv st' = Some d /\ bsa st' = Some b
  | None =>
      vdw st' = vdw st /\ elec st' = elec st /\
      desolv st' = desolv st /\ bsa st' = bsa st
  end.
Proof.
  induction out as [|ln rest IH]; intros st st' E.
  - injection E as <-. simpl. repeat split.
  - cbn [read_lines] in E. bind_inv E. destruct (IH _ _ E) as [Hs Ht].
    cbn [last_with]. split.
    + destruct (last_with score_prefix rest); [exact Hs|].
      destruct (PyStr.startswith ln score_prefix) eqn:S.
      * destruct (read_line_score_set _ _ _ E0 S) as (s & P & B).
        exists s. split; [exact P|]. now rewrite Hs.
      * rewrite Hs. eapply read_line_score; eauto.
    + destruct (last_with terms_prefix rest); [exact Ht|].
      destruct Ht as (H1 & H2 & H3 & H4).
      destruct (PyStr.startswith ln terms_prefix) eqn:T.
      * destruct (read_line_terms_set _ _ _ E0 T)
          as (v & e & d & b & F1 & F2 & F3 & F4 & B1 & B2 & B3 & B4).
        exists v, e, d, b. rewrite H1, H2, H3, H4. repeat split; assumption.
      * destruct (read_line_terms_kept _ _ _ E0 T) as (K1 & K2 & K3 & K4).
        rewrite H1, H2, H3, H4. repeat split; assumption.
Qed.

(** X2: when the report has several lines of a prefix, the terms returned
    are those of the last one: the score is the last word of the last
    score line, and the four energy terms are the fields of the last line
    of energy terms. *)
Theorem calc_score_last_line_wins (p : completed) s v e d b :
  calc_score py_float p = Ok (s, v, e, d, b) ->
  exists ls lt,
    last_with score_prefix (report_lines p) = Some ls /\
    last_with terms_prefix (report_lines p) = Some lt /\
    score_of_line py_float ls = Ok s /\
    field py_float "vdw=" lt = Ok v /\
    field py_float "elec=" lt = Ok e /\
    field py_float "desolv=" lt = Ok d /\
    field py_float "bsa=" lt = Ok b.
Proof.
  unfold calc_score, report_lines. intro E.
  destruct (negb (returncode p =? 0)); [discriminate|].
  bind_inv E. destruct (read_lines_last _ _ _ E0) as [Hs Ht].
  unfold return_terms in E. repeat bind_inv E. injection E as <- <- <- <- <-.
  destruct (score a) as [s0|] eqn:Ss; [|discriminate]. injection E1 as <-.
  destruct (vdw a) as [v0|] eqn:Sv; [|discriminate]. injection E2 as <-.
  destruct (elec a) as [e0|] eqn:Se; [|discriminate]. injection E3 as <-.
  destruct (desolv a) as [d0|] eqn:Sd; [|discriminate]. injection E4 as <-.
  destruct (bsa a) as [b0|] eqn:Sb; [|discriminate]. injection E5 as <-.
  destruct (last_with score_prefix _) as [ls|]; [|discriminate].
  destruct (last_with terms_prefix _) as [lt|];
    [|destruct Ht as (Q & _); discriminate].
  destruct Hs as (s' & P & [= <-]).
  destruct Ht as (v' & e' & d' & b' & F1 & F2 & F3 & F4
                  & [= <-] & [= <-] & [= <-] & [= <-]).
  exists ls, lt. repeat split; assumption.
Qed.
End ScoreExtra.

(** X1, a witness: the sample report with further lines around. *)
Lemma calc_score_reads_prefixed_lines_only_witness :
  Score.calc_score Score.sample_float
    (Score.mk_completed 0 ScoreSpec.padded_report) =
  Score.calc_score Score.sample_float
    (Score.mk_completed 0 Score.good_report).
Proof.
  apply calc_score_reads_prefixed_lines_only; reflexivity.
Defined.

(** X2, a witness: the sample report. *)
Lemma calc_score_last_line_wins_witness :
  exists ls lt,
    ScoreSpec.last_with Score.score_prefix
      (ScoreSpec.report_lines (Score.mk_completed 0 Score.good_report))
      = Some ls /\
    ScoreSpec.last_with Score.terms_prefix
      (ScoreSpec.report_lines (Score.mk_completed 0 Score.good_report))
      = Some lt /\
    Score.field Score.sample_float "bsa=" lt = Ok 900%float.
Proof.
  destruct (calc_score_last_line_wins Score.sample_float
              (Score.mk_completed 0 Score.good_report)
              (-10.5) (-4) (-2) 1.5 900 eq_refl)%float
    as (ls & lt & L1 & L2 & _ & _ & _ & _ & F).
  exists ls, lt. repeat split; assumption.
Defined.

(** ** [add_zscores]: columns with at most one value *)

Lemma std_few_values (column : list float) :
  (List.length (Pandas.dropna column) <= 1)%nat -> Pandas.std column = nan.
Proof.
  unfold Pandas.std. intro L.
  destruct (Z.leb_spec (Z.of_nat (List.length (Pandas.dropna column))) 1);
    [reflexivity | lia].
Qed.

(** X3: when at most one entry of the column is a number (an empty
    frame, a single row, or rows with missing values around one value),
    every z-score is not a number, and the column keeps its length. *)
Theorem add_zscores_few_values_nan (column : list float) :
  (List.length (Pandas.dropna column) <= 1)%nat ->
  add_zscores column = map (fun _ => nan) column.
Proof.
  intro L. unfold add_zscores. rewrite (std_few_values _ L).
  replace (Pandas.fne nan 0) with true by reflexivity.
  apply map_ext. intro x. apply div_by_nan.
Qed.

(** X3, a witness: one value between two missing ones. *)
Lemma add_zscores_few_values_nan_witness :
  add_zscores [nan; 2%float; nan] = [nan; nan; nan].
Proof.
  apply (add_zscores_few_values_nan [nan; 2%float; nan]).
  vm_compute. lia.
Defined.

(** ** [MPIScheduler.run]: when it returns *)

Section MPIExtra.
Import MPI.
Variable find_executable : string -> option string.
Variable stderr_of : string -> string.
Variable cwd : string.
Variable ncores : option Z.

Lemma hand_off_returned tr cmd :
  snd (hand_off stderr_of tr cmd) = Returned <-> stderr_of cmd = "".
Proof.
  unfold hand_off. destruct (stderr_of cmd =? "")%string eqn:Q; simpl.
  - apply String.eqb_eq in Q. tauto.
  - apply String.eqb_neq in Q. split; [discriminate | contradiction].
Qed.

Lemma hand_off_keeps tr cmd e :
  In e tr -> In e (fst (hand_off stderr_of tr cmd)).
Proof.
  unfold hand_off. intro I.
  destruct (negb (stderr_of cmd =? "")%string); simpl;
    repeat (apply in_or_app; left); exact I.
Qed.

(** X4: the call returns exactly when a launcher was found and the
    process started wrote nothing to its standard error; and in every
    case, the fatal ones too, the tasks have been pickled to mpi.pkl. *)
Theorem run_returns_iff_quiet :
  let r := run find_executable stderr_of cwd ncores in
  (snd r = Returned <->
     exists cmd, launched (fst r) = [cmd] /\ stderr_of cmd = "") /\
  In (Pickle (pkl_path cwd)) (fst r).
Proof.
  cbv zeta. unfold run. split.
  - destruct (find_executable "mpirun");
      [|destruct (find_executable "srun")].
    + rewrite hand_off_returned, hand_off_launched. simpl. split.
      * intro Q. eexists. split; [reflexivity | exact Q].
      * intros (cmd & [= <-] & Q). exact Q.
    + rewrite hand_off_returned, hand_off_launched. simpl. split.
      * intro Q. eexists. split; [reflexivity | exact Q].
      * intros (cmd & [= <-] & Q). exact Q.
    + simpl. split; [discriminate|]. intros (cmd & L & _). discriminate.
  - destruct (find_executable "mpirun");
      [|destruct (find_executable "srun")].
    + apply hand_off_keeps. simpl. auto.
    + apply hand_off_keeps. simpl. auto.
    + cbn [fst]. apply in_or_app. left. simpl. auto.
Qed.
End MPIExtra.

(** ** [alascan_cluster_analysis]: the files and their rows *)

Section ClusterExtra.
Import Cluster ClusterSpec ClusterOrder.

Lemma existsb_keys {K V} `{EqKeyLaws K} (d : Dict.t K V) k :
  existsb (keqb k) (Dict.keys d) =
    match Dict.lookup k d with Some _ => true | None => false end.
Proof.
  induction d as [|[k0 v0] d IH]; simpl; [reflexivity|].
  destruct (keqb k k0); simpl; [reflexivity | exact IH].
Qed.

Lemma add_rows_keys c rows : forall clt_scan clt_scan',
  add_rows c clt_scan rows = Ok clt_scan' ->
  Dict.keys clt_scan' = Dict.keys clt_scan.
Proof.
  induction rows as [|r rows IH]; simpl; intros s s' E.
  - now injection E as <-.
  - bind_inv E. rewrite (IH _ _ E). unfold add_row, get_key in E0.
    destruct (Dict.lookup c s) as [d|] eqn:L; [|discriminate]. simpl in E0.
    assert (X : existsb (keqb c) (Dict.keys s) = true)
      by (rewrite existsb_keys; now rewrite L).
    destruct (Dict.lookup (ident_of r) d); injection E0 as <-;
      now rewrite set_keys, X.
Qed.

Lemma visit_keys files st m st' :
  visit files st m = Ok st' ->
  Dict.keys (fst st') = push (cl_id_of m) (Dict.keys (fst st)).
Proof.
  unfold visit. destruct st as [s p]. intro E. bind_inv E.
  destruct a as [s1 p1]. bind_inv E. bind_inv E. injection E as <-.
  cbn [fst]. rewrite (add_rows_keys _ _ _ _ E2). unfold push.
  rewrite existsb_keys.
  destruct (Dict.lookup (cl_id_of m) s) as [d|] eqn:L.
  - bind_inv E0. now injection E0 as <- _.
  - injection E0 as <- _. rewrite set_keys, existsb_keys. now rewrite L.
Qed.

Lemma visit_all_keys files models : forall st st',
  visit_all files st models = Ok st' ->
  Dict.keys (fst st') =
    fold_left (fun l m => push (cl_id_of m) l) models (Dict.keys (fst st)).
Proof.
  induction models as [|m rest IH]; simpl; intros st st' E.
  - now injection E as <-.
  - bind_inv E. rewrite (IH _ _ E). now rewrite (visit_keys _ _ _ _ E0).
Qed.

Lemma averages_names cl_pops k d : forall rows,
  averages cl_pops k d = Ok rows -> map full_resname rows = Dict.keys d.
Proof.
  induction d as [|[ident e] d IH]; simpl; intros rows E.
  - now injection E as <-.
  - bind_inv E. bind_inv E. injection E as <-. simpl.
    rewrite (IH _ E1). f_equal.
    unfold average in E0. repeat bind_inv E0. now injection E0 as <-.
Qed.

Lemma map_combine_fst {A B C} (g : A -> C) (h : A -> B -> A) (l : list A) :
  (forall a b, g (h a b) = g a) ->
  forall l' : list B, List.length l' = List.length l ->
  map g (map (fun p => h (fst p) (snd p)) (combine l l')) = map g l.
Proof.
  intro G. induction l as [|a l IH]; intros [|b l'] E; simpl in *;
    try reflexivity; try discriminate.
  rewrite G. f_equal. apply IH. now injection E.
Qed.

Lemma with_zscores_names rows :
  map full_resname (with_zscores rows) = map full_resname rows.
Proof.
  unfold with_zscores.
  apply (map_combine_fst full_resname set_z); [reflexivity|].
  now rewrite add_zscores_length, length_map.
Qed.

Lemma summarise_match cl_pops kd f :
  summarise cl_pops kd = Ok f -> rows_match_keys kd f.
Proof.
  unfold summarise, rows_match_keys. destruct kd as [k d]. intro E.
  bind_inv E. injection E as <-. simpl. split; [reflexivity|].
  rewrite <- (averages_names _ _ _ _ E0), <- (with_zscores_names a).
  apply Permutation_map, sort_values_perm.
Qed.

Lemma summarise_all_match cl_pops clt_scan : forall written,
  summarise_all cl_pops clt_scan = Ok written ->
  Forall2 rows_match_keys clt_scan written.
Proof.
  induction clt_scan as [|kd rest IH]; simpl; intros written E.
  - injection E as <-. constructor.
  - bind_inv E. bind_inv E. injection E as <-. constructor.
    + now apply (summarise_match cl_pops).
    + now apply IH.
Qed.

(** X5: the call writes one summary per cluster, named after the cluster,
    in the order in which the clusters first appear among the models;
    these clusters are also the keys of the dictionary returned.  A
    cluster whose files hold no row has its file as well. *)
Theorem one_summary_per_cluster files models clt_scan written :
  alascan_cluster_analysis files models = Ok (clt_scan, written) ->
  Dict.keys clt_scan = clusters models /\
  map fst written = map scan_clt_filename (clusters models).
Proof.
  unfold alascan_cluster_analysis. intro E. bind_inv E.
  destruct a as [s p]. bind_inv E. injection E as <- <-.
  assert (K : Dict.keys s = clusters models)
    by (apply (visit_all_keys _ _ _ _ E0)).
  split; [exact K|]. rewrite <- K.
  apply summarise_all_match in E1. clear - E1.
  induction E1 as [|kd f l l' [N _] _ IH]; simpl; [reflexivity|].
  now rewrite N, IH.
Qed.

(** X6: the summary of a cluster has exactly one row per key of the
    cluster in the dictionary returned: the keys of its rows are a
    rearrangement of the keys of the cluster. *)
Theorem one_row_per_key files models clt_scan written :
  alascan_cluster_analysis files models = Ok (clt_scan, written) ->
  Forall2 rows_match_keys clt_scan written.
Proof.
  unfold alascan_cluster_analysis. intro E. bind_inv E.
  destruct a as [s p]. bind_inv E. injection E as <- <-.
  now apply summarise_all_match in E1.
Qed.
End ClusterExtra.

(** X5, a witness: the two sample structures are of one cluster. *)
Lemma one_summary_per_cluster_witness :
  exists clt_scan written,
    Cluster.alascan_cluster_analysis ClusterSpec.two_files
      ClusterSpec.two_models = Ok (clt_scan, written) /\
    map fst written = ["scan_clt_1.csv"].
Proof.
  destruct (Cluster.alascan_cluster_analysis ClusterSpec.two_files
              ClusterSpec.two_models) as [[clt_scan written]|x] eqn:E;
    [|vm_compute in E; discriminate].
  exists clt_scan, written. split; [reflexivity|].
  exact (proj2 (one_summary_per_cluster _ _ _ _ E)).
Defined.

(** X6, a witness: the summary of the sample cluster has two rows. *)
Lemma one_row_per_key_witness :
  exists clt_scan written,
    Cluster.alascan_cluster_analysis ClusterSpec.two_files
      ClusterSpec.two_models = Ok (clt_scan, written) /\
    Forall2 ClusterOrder.rows_match_keys clt_scan written.
Proof.
  destruct (Cluster.alascan_cluster_analysis ClusterSpec.two_files
              ClusterSpec.two_models) as [[clt_scan written]|x] eqn:E;
    [|vm_compute in E; discriminate].
  exists clt_scan, written. split; [reflexivity|].
  exact (one_row_per_key _ _ _ _ E).
Defined.

(** ** [alascan_cluster_analysis]: the key and its pieces *)

Section KeyExtra.
Import Cluster ClusterSpec.

Lemma append_empty_r s : s ++ "" = s.
Proof. induction s; simpl; congruence. Qed.

Lemma append_assoc_r a b c : (a ++ b) ++ c = a ++ (b ++ c).
Proof. induction a; simpl; congruence. Qed.

Lemma prefix_hyphen c s :
  prefix "-" (String c s) = Ascii.eqb c "-".
Proof.
  cbn [prefix]. destruct (ascii_dec "-" c) as [<-|N].
  - now destruct s.
  - symmetry. apply Ascii.eqb_neq. congruence.
Qed.

Lemma split_no_hyphen s : forall cur,
  hyphens s = 0%nat -> PyStr.split_from "-" 0 cur s = [cur ++ s].
Proof.
  induction s as [|c s IH]; intros cur H.
  - simpl. now rewrite append_empty_r.
  - cbn [PyStr.split_from]. rewrite prefix_hyphen.
    cbn [hyphens] in H. destruct (Ascii.eqb c "-"); [discriminate|].
    rewrite IH by exact H. now rewrite append_assoc_r.
Qed.

Lemma split_upto_hyphen a rest : forall cur,
  hyphens a = 0%nat ->
  PyStr.split_from "-" 0 cur (a ++ String "-" rest) =
    (cur ++ a) :: PyStr.split_from "-" 0 "" rest.
Proof.
  induction a as [|c a IH]; intros cur H.
  - cbn [append PyStr.split_from]. rewrite prefix_hyphen.
    now rewrite append_empty_r.
  - cbn [append PyStr.split_from]. rewrite prefix_hyphen.
    cbn [hyphens] in H. destruct (Ascii.eqb c "-"); [discriminate|].
    rewrite IH by exact H. now rewrite append_assoc_r.
Qed.

Lemma split_at_hyphen rest cur :
  PyStr.split_from "-" 0 cur (String "-" rest) =
    cur :: PyStr.split_from "-" 0 "" rest.
Proof.
  rewrite <- (append_empty_r cur) at 2.
  exact (split_upto_hyphen "" rest cur eq_refl).
Qed.

Lemma digits_no_hyphen d : hyphens (NilEmpty.string_of_uint d) = 0%nat.
Proof. induction d; simpl; auto. Qed.

Lemma of_int_no_hyphen n : 0 <= n -> hyphens (PyStr.of_int n) = 0%nat.
Proof.
  unfold PyStr.of_int. destruct n as [|p|p]; intro N; [reflexivity| |lia].
  simpl. unfold NilZero.string_of_uint.
  destruct (Pos.to_uint p); try reflexivity; apply digits_no_hyphen.
Qed.

Lemma of_int_negative n :
  n < 0 -> PyStr.of_int n = String "-" (PyStr.of_int (- n)).
Proof. destruct n; intro N; try lia. reflexivity. Qed.

(** X7: a key is cut back into its three pieces: for a chain and a
    residue name without a hyphen and a residue number that is not
    negative, the columns chain, resnum and resname of the row are the
    chain, the decimal residue number and the residue name the key was
    made of. *)
Theorem key_round_trip cl_pops k e row (r : scan_row) :
  hyphens (chain r) = 0%nat -> 0 <= res r ->
  hyphens (ori_resname r) = 0%nat ->
  average cl_pops k (ident_of r) e = Ok row ->
  c_chain row = chain r /\
  c_resnum row = PyStr.of_int (res r) /\
  c_resname row = ori_resname r /\
  full_resname row = ident_of r.
Proof.
  intros Hc Hn Hr. unfold average, PyStr.split, ident_of.
  cbn [append].
  rewrite (split_upto_hyphen _ _ _ Hc).
  rewrite (split_upto_hyphen _ _ _ (of_int_no_hyphen _ Hn)).
  rewrite (split_no_hyphen _ _ Hr). simpl.
  intro E. bind_inv E. injection E as <-. repeat split.
Qed.

(** X8: with a negative residue number the key has two hyphens in a row
    and the pieces shift: the column resnum is empty and the column
    resname holds the digits of the number, not the residue name. *)
Theorem negative_resnum_shifts_columns cl_pops k e row (r : scan_row) :
  hyphens (chain r) = 0%nat -> res r < 0 ->
  average cl_pops k (ident_of r) e = Ok row ->
  c_chain row = chain r /\
  c_resnum row = "" /\
  c_resname row = PyStr.of_int (- res r).
Proof.
  intros Hc Hn. unfold average, PyStr.split, ident_of.
  rewrite (of_int_negative _ Hn). cbn [append].
  rewrite (split_upto_hyphen _ _ _ Hc).
  rewrite split_at_hyphen.
  assert (P : 0 <= - res r) by lia.
  rewrite (split_upto_hyphen _ _ _ (of_int_no_hyphen _ P)).
  pose proof (split_hyphens (ori_resname r) "") as L.
  destruct (PyStr.split_from "-" 0 "" (ori_resname r)); [discriminate|].
  simpl. intro E. bind_inv E. injection E as <-. repeat split.
Qed.
End KeyExtra.

(** X7, a witness: ALA 12 of chain A in a cluster of two. *)
Lemma key_round_trip_witness :
  exists row,
    Cluster.average [(Cluster.KInt 1, 2)] (Cluster.KInt 1) "A-12-ALA"
      (Cluster.first_entry (ClusterSpec.zero_row "A" 12 "ALA" 2%float))
      = Ok row /\
    Cluster.c_chain row = "A" /\ Cluster.c_resnum row = "12" /\
    Cluster.c_resname row = "ALA".
Proof.
  eexists. split; [reflexivity|].
  destruct (key_round_trip [(Cluster.KInt 1, 2)] (Cluster.KInt 1)
              (Cluster.first_entry (ClusterSpec.zero_row "A" 12 "ALA" 2%float))
              _ (ClusterSpec.zero_row "A" 12 "ALA" 2%float)
              eq_refl ltac:(simpl; lia) eq_refl eq_refl)
    as (H1 & H2 & H3 & _).
  repeat split; assumption.
Defined.

(** X8, a witness: ALA -5 of chain A. *)
Lemma negative_resnum_shifts_columns_witness :
  exists row,
    Cluster.average [(Cluster.KInt 1, 2)] (Cluster.KInt 1) "A--5-ALA"
      (Cluster.first_entry (ClusterSpec.zero_row "A" (-5) "ALA" 2%float))
      = Ok row /\
    Cluster.c_resnum row = "" /\ Cluster.c_resname row = "5".
Proof.
  eexists. split; [reflexivity|].
  destruct (negative_resnum_shifts_columns [(Cluster.KInt 1, 2)]
              (Cluster.KInt 1)
              (Cluster.first_entry
                 (ClusterSpec.zero_row "A" (-5) "ALA" 2%float))
              _ (ClusterSpec.zero_row "A" (-5) "ALA" 2%float)
              eq_refl ltac:(simpl; lia) eq_refl)
    as (_ & H2 & H3).
  split; assumption.
Defined.

(** ** [Scan.run]: the rows and the files *)

Lemma fne_nan (x : float) : Pandas.fne x nan = true.
Proof.
  unfold Pandas.fne. rewrite eqb_spec. unfold SFeqb, SFcompare.
  replace (Prim2SF nan) with S754_nan by reflexivity.
  now destruct (Prim2SF x).
Qed.

Lemma sub_nan (x : float) : (x - nan)%float = nan.
Proof.
  rewrite <- (SF2Prim_Prim2SF (x - nan)). rewrite sub_spec.
  unfold SF64sub, SFsub.
  replace (Prim2SF nan) with S754_nan by reflexivity.
  destruct (Prim2SF x); reflexivity.
Qed.

Section ScanExtra.
Import Score ScanRun ScanSpec.
Variable py_float : string -> option float.
Variable haddock3_score : string -> string -> completed.
Variable read_pdb : string -> option (list string).
Variable identify_interface : string -> Dict.t string (list Z).
Variable coords_keys : string -> list (string * Z * string * string).
Variable scan_res : string.
Variable core : Z.

#[local] Abbreviation scan_residue_x :=
  (scan_residue py_float haddock3_score read_pdb scan_res core).
#[local] Abbreviation scan_chain_x :=
  (scan_chain py_float haddock3_score read_pdb scan_res core).
#[local] Abbreviation scan_chains_x :=
  (scan_chains py_float haddock3_score read_pdb scan_res core).
#[local] Abbreviation scan_model_x :=
  (scan_model py_float haddock3_score read_pdb identify_interface
     coords_keys scan_res core).
#[local] Abbreviation run_from_x :=
  (run_from py_float haddock3_score read_pdb identify_interface
     coords_keys scan_res core).
#[local] Abbreviation row_sound_x :=
  (row_sound py_float haddock3_score read_pdb scan_res core).

Lemma scan_residue_rows native n ori_score rd chain st res st' :
  scan_residue_x native n ori_score rd chain st res = Ok st' ->
  Forall (row_sound_x native ori_score n rd) (scan_data st) ->
  Forall (row_sound_x native ori_score n rd) (scan_data st').
Proof.
  unfold scan_residue. intros E F. bind_inv E.
  unfold Dict.get in E0.
  destruct (Dict.lookup (res_key chain res) rd) as [o|] eqn:L;
    [|discriminate].
  injection E0 as <-.
  destruct (o =? scan_res)%string eqn:Q.
  - now injection E as <-.
  - apply String.eqb_neq in Q.
    bind_inv E. bind_inv E. bind_inv E.
    destruct a1 as [[[[c1 c2] c3] c4] c5] eqn:C.
    destruct n as [[[[n1 n2] n3] n4] n5].
    rewrite fne_nan in E. bind_inv E. injection E3 as <-.
    injection E as <-. cbn [scan_data].
    apply Forall_app. split; [exact F|]. constructor; [|constructor].
    unfold row_sound. cbn. repeat split; try assumption; try reflexivity.
    destruct (read_pdb (rel_path native)) as [lines|]; [|discriminate].
    injection E0 as <-. exists lines, a0. repeat split; assumption.
Qed.

Lemma scan_chain_rows native n ori_score rd chain residues : forall st st',
  scan_chain_x native n ori_score rd chain st residues = Ok st' ->
  Forall (row_sound_x native ori_score n rd) (scan_data st) ->
  Forall (row_sound_x native ori_score n rd) (scan_data st').
Proof.
  induction residues as [|res rest IH]; simpl; intros st st' E F.
  - now injection E as <-.
  - bind_inv E. apply (IH _ _ E). eapply scan_residue_rows; eauto.
Qed.

Lemma scan_chains_rows native n ori_score rd interface chains :
  forall st st',
  scan_chains_x native n ori_score rd interface st chains = Ok st' ->
  Forall (row_sound_x native ori_score n rd) (scan_data st) ->
  Forall (row_sound_x native ori_score n rd) (scan_data st').
Proof.
  induction chains as [|chain rest IH]; simpl; intros st st' E F.
  - now injection E as <-.
  - bind_inv E. bind_inv E. apply (IH _ _ E).
    eapply scan_chain_rows; eauto.
Qed.

Lemma scan_model_rows st native st' :
  scan_model_x st native = Ok st' ->
  exists ori_score n,
    coerce py_float (m_score native) = Ok ori_score /\
    calc_score py_float (haddock3_score (rel_path native) (sc_dir core))
      = Ok n /\
    Forall (row_sound_x native ori_score n
              (resnames (coords_keys (rel_path native)) []))
      (scan_data st').
Proof.
  unfold scan_model. intro E. bind_inv E. bind_inv E. bind_inv E.
  injection E as <-. exists a, a0. repeat split; try assumption.
  cbn [scan_data]. eapply scan_chains_rows; [exact E2|]. constructor.
Qed.

(** X9: every row of the file of a model is of an interface residue of
    another type than the target, carries the terms the scorer gave for
    the mutant of that residue, and its deltas are these terms minus the
    workflow score (for the score) and minus the terms of the native
    structure: the delta to the workflow score is never left over from an
    earlier residue. *)
Theorem scan_rows_are_sound st native st' :
  scan_model py_float haddock3_score read_pdb identify_interface
    coords_keys scan_res core st native = Ok st' ->
  exists ori_score n,
    coerce py_float (m_score native) = Ok ori_score /\
    calc_score py_float (haddock3_score (rel_path native) (sc_dir core))
      = Ok n /\
    Forall (row_sound py_float haddock3_score read_pdb scan_res core
              native ori_score n
              (resnames (coords_keys (rel_path native)) []))
      (scan_data st').
Proof. apply scan_model_rows. Qed.

Lemma scan_residue_any_score native native' n o o' rd chain st res st1 :
  rel_path native' = rel_path native ->
  scan_residue_x native n o rd chain st res = Ok st1 ->
  forall st', exists st1',
    scan_residue_x native' n o' rd chain st' res = Ok st1'.
Proof.
  unfold scan_residue. intros R E st'. rewrite R.
  destruct (Dict.get (res_key chain res) rd) as [name|]; [|discriminate].
  cbn [bind] in *.
  destruct (name =? scan_res)%string; [now eexists|].
  destruct (of_option (FileNotFoundError (rel_path native))
              (read_pdb (rel_path native))) as [lines|]; [|discriminate].
  cbn [bind] in *.
  destruct (Mutate.mutate (name_of (rel_path native)) lines chain res
              scan_res) as [w|]; [|discriminate].
  cbn [bind] in *.
  destruct (calc_score py_float
              (haddock3_score (Mutate.mut_pdb_fname w) (sc_dir core)))
    as [[[[[c1 c2] c3] c4] c5]|]; [|discriminate].
  cbn [bind] in *. destruct n as [[[[n1 n2] n3] n4] n5].
  rewrite fne_nan. cbn. now eexists.
Qed.

Lemma scan_chain_any_score native native' n o o' rd chain residues :
  rel_path native' = rel_path native ->
  forall st st1,
  scan_chain_x native n o rd chain st residues = Ok st1 ->
  forall st', exists st1',
    scan_chain_x native' n o' rd chain st' residues = Ok st1'.
Proof.
  intro R. induction residues as [|res rest IH]; simpl; intros st st1 E st'.
  - now eexists.
  - bind_inv E.
    destruct (scan_residue_any_score _ _ _ _ o' _ _ _ _ _ R E0 st')
      as (x & ->).
    cbn [bind]. eapply IH; eauto.
Qed.

Lemma scan_chains_any_score native native' n o o' rd interface chains :
  rel_path native' = rel_path native ->
  forall st st1,
  scan_chains_x native n o rd interface st chains = Ok st1 ->
  forall st', exists st1',
    scan_chains_x native' n o' rd interface st' chains = Ok st1'.
Proof.
  intro R. induction chains as [|chain rest IH]; simpl; intros st st1 E st'.
  - now eexists.
  - bind_inv E. rewrite E0. cbn [bind] in *. bind_inv E.
    destruct (scan_chain_any_score _ _ _ _ o' _ _ _ R _ _ E1 st')
      as (x & ->).
    cbn [bind]. eapply IH; eauto.
Qed.

(** Whether a model is scanned to the end does not hang on its workflow
    score, once that is a float. *)
Lemma scan_model_any_score native native' o o' st st1 :
  rel_path native' = rel_path native ->
  coerce py_float (m_score native) = Ok o ->
  coerce py_float (m_score native') = Ok o' ->
  scan_model_x st native = Ok st1 ->
  exists st1', scan_model_x st native' = Ok st1'.
Proof.
  unfold scan_model. intros R C C' E. rewrite R, C'. rewrite C in E.
  cbn [bind] in *. bind_inv E. rewrite E0. cbn [bind] in *. bind_inv E.
  destruct (scan_chains_any_score _ native' _ _ o' _ _ _ R _ _ E1
              (mk_state (c_terms st) (delta_ori_score st) []
                 (trace st ++ [EvScore (rel_path native) (sc_dir core)])))
    as (x & ->).
  cbn [bind]. now eexists.
Qed.

(** X10: a workflow score that is a text [float] does not read is taken
    as not-a-number, without an exception; the model is then scanned to
    the end exactly when it is with a number for a score; and the delta to
    the workflow score is not a number in every row of its file. *)
Theorem unreadable_score_gives_nan_delta native s :
  m_score native = VStr s -> py_float s = None ->
  coerce py_float (m_score native) = Ok nan /\
  (forall x st,
     (exists st',
        scan_model py_float haddock3_score read_pdb identify_interface
          coords_keys scan_res core st native = Ok st') <->
     (exists st',
        scan_model py_float haddock3_score read_pdb identify_interface
          coords_keys scan_res core st
          (mk_model (VFloat x) (rel_path native) (file_name native))
          = Ok st')) /\
  (forall st st',
     scan_model py_float haddock3_score read_pdb identify_interface
       coords_keys scan_res core st native = Ok st' ->
     Forall (fun row => r_delta_ori_score row = nan) (scan_data st')).
Proof.
  intros M P.
  assert (C : coerce py_float (m_score native) = Ok nan)
    by (rewrite M; simpl; now rewrite P).
  split; [exact C|]. split.
  - intros x st. split; intros (st' & E).
    + exact (scan_model_any_score native
               (mk_model (VFloat x) (rel_path native) (file_name native))
               nan x st st' eq_refl C eq_refl E).
    + exact (scan_model_any_score
               (mk_model (VFloat x) (rel_path native) (file_name native))
               native x nan st st' eq_refl eq_refl C E).
  - intros st st' E.
    destruct (scan_model_rows _ _ _ E) as (o & n & C' & _ & F).
    rewrite C in C'. injection C' as <-.
    eapply Forall_impl; [|exact F].
    intros row R. unfold row_sound in R.
    destruct n as [[[[n1 n2] n3] n4] n5].
    destruct R as (_ & _ & _ & _ & D & _). rewrite D. apply sub_nan.
Qed.
End ScanExtra.

Section ScanFiles.
Import Score ScanRun ScanSpec.
Variable py_float : string -> option float.
Variable haddock3_score : string -> string -> completed.
Variable read_pdb : string -> option (list string).
Variable identify_interface : string -> Dict.t string (list Z).
Variable coords_keys : string -> list (string * Z * string * string).
Variable scan_res : string.
Variable core : Z.

Lemma tidy_nil : tidy [].
Proof. repeat split. Qed.

Lemma tidy_app e1 e2 : tidy e1 -> tidy e2 -> tidy (e1 ++ e2)%list.
Proof.
  unfold tidy, written_files, scored_files, removed_files, mutant_files.
  intros (W1 & S1 & R1) (W2 & S2 & R2).
  rewrite !flat_map_app, W1, W2, S1, S2, R1, R2. repeat split.
Qed.

Lemma grows_refl st : grows_tidily st st.
Proof. exists []. split; [now rewrite app_nil_r | apply tidy_nil]. Qed.

Lemma grows_trans st1 st2 st3 :
  grows_tidily st1 st2 -> grows_tidily st2 st3 -> grows_tidily st1 st3.
Proof.
  intros (e1 & T1 & Y1) (e2 & T2 & Y2). exists (e1 ++ e2)%list. split.
  - now rewrite T2, T1, app_assoc.
  - now apply tidy_app.
Qed.

Lemma scan_residue_tidy native n ori_score rd chain st res st' :
  scan_residue py_float haddock3_score read_pdb scan_res core
    native n ori_score rd chain st res = Ok st' ->
  grows_tidily st st'.
Proof.
  unfold scan_residue. intro E. bind_inv E.
  destruct (a =? scan_res)%string.
  - injection E as <-. exists []. split; [simpl; now rewrite app_nil_r|].
    apply tidy_nil.
  - bind_inv E. bind_inv E. bind_inv E.
    destruct a2 as [[[[c1 c2] c3] c4] c5], n as [[[[n1 n2] n3] n4] n5].
    bind_inv E. injection E as <-. eexists. split; [reflexivity|].
    repeat split.
Qed.

Lemma scan_chain_tidy native n ori_score rd chain residues : forall st st',
  scan_chain py_float haddock3_score read_pdb scan_res core
    native n ori_score rd chain st residues = Ok st' ->
  grows_tidily st st'.
Proof.
  induction residues as [|res rest IH]; simpl; intros st st' E.
  - injection E as <-. apply grows_refl.
  - bind_inv E. eapply grows_trans; [|eapply IH; eauto].
    eapply scan_residue_tidy; eauto.
Qed.

Lemma scan_chains_tidy native n ori_score rd interface chains :
  forall st st',
  scan_chains py_float haddock3_score read_pdb scan_res core
    native n ori_score rd interface st chains = Ok st' ->
  grows_tidily st st'.
Proof.
  induction chains as [|chain rest IH]; simpl; intros st st' E.
  - injection E as <-. apply grows_refl.
  - bind_inv E. bind_inv E. eapply grows_trans; [|eapply IH; eauto].
    eapply scan_chain_tidy; eauto.
Qed.

Lemma scan_model_adds st native st' :
  scan_model py_float haddock3_score read_pdb identify_interface
    coords_keys scan_res core st native = Ok st' ->
  run_adds [native] st st'.
Proof.
  unfold scan_model. intro E. bind_inv E. bind_inv E. bind_inv E.
  injection E as <-. apply scan_chains_tidy in E2.
  destruct E2 as (evs & T & W & S & R). cbn [trace] in *.
  exists (EvScore (rel_path native) (sc_dir core) :: evs ++
          [EvWriteScan (alascan_fname native) (header native)
             (combine (scan_data a1)
                (add_zscores (map r_delta_score (scan_data a1))))])%list.
  split; [rewrite T, <- !app_assoc; reflexivity|].
  unfold written_files, removed_files, mutant_files, scored_files in *.
  cbn [flat_map app]. rewrite !flat_map_app, W, S, R. cbn [flat_map app].
  rewrite !app_nil_r. repeat split; simpl; try lia.
Qed.

Lemma run_from_adds models : forall st st',
  run_from py_float haddock3_score read_pdb identify_interface
    coords_keys scan_res core st models = Ok st' ->
  run_adds models st st'.
Proof.
  induction models as [|native rest IH]; simpl; intros st st' E.
  - injection E as <-. exists []. rewrite app_nil_r. repeat split.
  - bind_inv E. apply scan_model_adds in E0. apply IH in E.
    destruct E0 as (e1 & T1 & W1 & R1 & S1), E as (e2 & T2 & W2 & R2 & S2).
    exists (e1 ++ e2)%list.
    unfold written_files, removed_files, mutant_files, scored_files in *.
    rewrite T2, T1, app_assoc, !flat_map_app, W1, W2, R1, R2, !length_app.
    repeat split. cbn [List.length] in *. lia.
Qed.

(** X11: a run that comes to its end has written one file of results per
    model, in the order of the models and also for a model without a row;
    every mutant file it wrote it has removed again; and the scorer was
    called once per model and once per mutant file. *)
Theorem run_writes_one_file_per_model model_list st :
  run py_float haddock3_score read_pdb identify_interface coords_keys
    scan_res core model_list = Ok st ->
  written_files (trace st) = map alascan_fname model_list /\
  removed_files (trace st) = mutant_files (trace st) /\
  List.length (scored_files (trace st)) =
    (List.length model_list + List.length (mutant_files (trace st)))%nat.
Proof.
  unfold run. intro E. apply run_from_adds in E.
  destruct E as (evs & T & W & R & S). simpl in T. now rewrite T.
Qed.

Lemma resnames_lookup keys : forall d key,
  Dict.lookup key (resnames keys d) =
    match Dict.lookup key d with
    | Some name => Some name
    | None => first_name key keys
    end.
Proof.
  induction keys as [|[[[c r] a] name] rest IH]; intros d key.
  - simpl. now destruct (Dict.lookup key d).
  - cbn [resnames first_name]. fold (res_key c r).
    destruct (Dict.lookup (res_key c r) d) as [v|] eqn:L; rewrite IH.
    + destruct (Dict.lookup key d) eqn:Lk; [reflexivity|].
      destruct (String.eqb_spec key (res_key c r)) as [->|N];
        [congruence | reflexivity].
    + destruct (String.eqb_spec key (res_key c r)) as [->|N].
      * now rewrite lookup_set_same, L.
      * rewrite (lookup_set_other _ _ _ _ N).
        now destruct (Dict.lookup key d).
Qed.

(** X12: the residue name the run holds for a residue is the name in the
    first key of the coordinates that is of that chain and residue number;
    a different name in a later key is not looked at. *)
Theorem resnames_first_key_wins keys key :
  Dict.lookup key (resnames keys []) = first_name key keys.
Proof. apply (resnames_lookup keys [] key). Qed.
End ScanFiles.

(** X9, a witness: the sample structure scanned to ALA. *)
Lemma scan_rows_are_sound_witness :
  exists st' ori_score n,
    ScanRun.scan_model Score.sample_float ScanRun.ex_scorer ScanRun.ex_read
      ScanRun.ex_interface ScanRun.ex_coords "ALA" 1 ScanRun.start
      ScanRun.ex_model = Ok st' /\
    Forall
      (ScanSpec.row_sound Score.sample_float ScanRun.ex_scorer
         ScanRun.ex_read "ALA" 1 ScanRun.ex_model ori_score n
         (ScanRun.resnames (ScanRun.ex_coords "m.pdb") []))
      (ScanRun.scan_data st').
Proof.
  destruct (ScanRun.scan_model Score.sample_float ScanRun.ex_scorer
              ScanRun.ex_read ScanRun.ex_interface ScanRun.ex_coords "ALA" 1
              ScanRun.start ScanRun.ex_model) as [st'|e] eqn:E;
    [|vm_compute in E; discriminate].
  destruct (scan_rows_are_sound _ _ _ _ _ _ _ _ _ _ E)
    as (o & n & _ & _ & F).
  exists st', o, n. split; [reflexivity | exact F].
Defined.

(** X10, a witness: the sample structure with the workflow score n/a. *)
Lemma unreadable_score_gives_nan_delta_witness :
  ScanRun.coerce Score.sample_float (ScanRun.m_score ScanSpec.ex_unscored)
    = Ok nan /\
  exists st',
    ScanRun.scan_model Score.sample_float ScanRun.ex_scorer ScanRun.ex_read
      ScanRun.ex_interface ScanRun.ex_coords "ALA" 1 ScanRun.start
      ScanSpec.ex_unscored = Ok st' /\
    Forall (fun row => ScanRun.r_delta_ori_score row = nan)
      (ScanRun.scan_data st').
Proof.
  destruct (unreadable_score_gives_nan_delta Score.sample_float
              ScanRun.ex_scorer ScanRun.ex_read ScanRun.ex_interface
              ScanRun.ex_coords "ALA" 1 ScanSpec.ex_unscored "n/a"
              eq_refl eq_refl) as (C & S & F).
  split; [exact C|].
  destruct (proj2 (S (-12.5)%float ScanRun.start)) as (st' & E).
  - eexists. vm_compute. reflexivity.
  - exists st'. split; [exact E | exact (F _ _ E)].
Defined.

(** X11, a witness: a run over the sample structure alone. *)
Lemma run_writes_one_file_per_model_witness :
  exists st,
    ScanRun.run Score.sample_float ScanRun.ex_scorer ScanRun.ex_read
      ScanRun.ex_interface ScanRun.ex_coords "ALA" 1 [ScanRun.ex_model]
      = Ok st /\
    ScanSpec.written_files (ScanRun.trace st) = ["scan_m.pdb.csv"] /\
    ScanSpec.removed_files (ScanRun.trace st) =
      ScanSpec.mutant_files (ScanRun.trace st).
Proof.
  destruct (ScanRun.run Score.sample_float ScanRun.ex_scorer ScanRun.ex_read
              ScanRun.ex_interface ScanRun.ex_coords "ALA" 1
              [ScanRun.ex_model]) as [st|e] eqn:E;
    [|vm_compute in E; discriminate].
  destruct (run_writes_one_file_per_model _ _ _ _ _ _ _ _ _ E)
    as (W & R & _).
  exists st. repeat split; assumption.
Defined.

(** X4, a witness: srun alone and a quiet driver. *)
Lemma run_returns_iff_quiet_witness :
  snd (MPI.run MPI.only_srun MPI.quiet "/home/u" (Some 4)) = MPI.Returned.
Proof.
  apply (proj1 (run_returns_iff_quiet MPI.only_srun MPI.quiet "/home/u"
                  (Some 4))).
  eexists. split; reflexivity.
Defined.

(** ** [mutate]: the name, the residue and a second pass *)

Section MutateExtra.
Import Mutate MutateSpec.
Variables (target_chain : string) (target_resnum : Z) (mut_resname : string).

Lemma mutate_line_resname st line st' :
  mutate_line target_chain target_resnum mut_resname st line = Ok st' ->
  resname st' =
    if (resname st =? "")%string
    then first_resname target_chain target_resnum [line]
    else resname st.
Proof.
  unfold mutate_line. cbn [first_resname].
  destruct (PyStr.startswith line "ATOM") eqn:A.
  - destruct (atom_fields line) as [[[c n] a]|e] eqn:F; cbn [bind];
      [|discriminate].
    assert (IT : is_target target_chain target_resnum line =
                 ((target_chain =? c)%string && (target_resnum =? n))%bool)
      by (unfold is_target; now rewrite A, F).
    rewrite IT.
    destruct ((target_chain =? c)%string && (target_resnum =? n))%bool.
    + destruct (PyStr.mem a ATOMS_TO_BE_MUTATED); intros [= <-];
        cbn [resname]; destruct (resname st =? "")%string; try reflexivity;
        now destruct (PyStr.strip (PyStr.slice 17 20 line) =? "")%string
          eqn:Q; [apply String.eqb_eq in Q|].
    + intros [= <-]. cbn [resname].
      now destruct (resname st =? "")%string eqn:Q;
        [apply String.eqb_eq in Q|].
  - assert (IT : is_target target_chain target_resnum line = false)
      by (unfold is_target; now rewrite A).
    rewrite IT. intros [= <-].
    now destruct (resname st =? "")%string eqn:Q;
      [apply String.eqb_eq in Q|].
Qed.

Lemma mutate_loop_resname lines : forall st st',
  mutate_loop target_chain target_resnum mut_resname lines st = Ok st' ->
  resname st' =
    if (resname st =? "")%string
    then first_resname target_chain target_resnum lines
    else resname st.
Proof.
  induction lines as [|line rest IH]; simpl; intros st st' E.
  - injection E as <-.
    now destruct (resname st =? "")%string eqn:Q;
      [apply String.eqb_eq in Q|].
  - bind_inv E. rewrite (IH _ _ E). rewrite (mutate_line_resname _ _ _ E0).
    cbn [first_resname].
    destruct (resname st =? "")%string eqn:Q; [|now rewrite Q].
    destruct (is_target target_chain target_resnum line);
      [|reflexivity].
    destruct (PyStr.strip (PyStr.slice 17 20 line) =? "")%string eqn:Q';
      [reflexivity | now rewrite Q'].
Qed.

Lemma first_resname_none lines :
  (forall line, In line lines ->
     is_target target_chain target_resnum line = false) ->
  first_resname target_chain target_resnum lines = "".
Proof.
  induction lines as [|line rest IH]; simpl; intro N; [reflexivity|].
  rewrite (N line) by now left. apply IH. intros l I. apply N. now right.
Qed.

(** X13: the file written is named after the one-letter codes of the
    original and of the target residue type: the original type is the
    first name that is not blank among the ATOM records of the requested
    residue, whether its atom is kept or not, and both types are in the
    table of twenty, else the call raises. *)
Theorem mutate_names_the_file pdb_name lines w :
  mutate pdb_name lines target_chain target_resnum mut_resname = Ok w ->
  exists c1 c2,
    Dict.lookup (first_resname target_chain target_resnum lines) RES_CODES
      = Some c1 /\
    Dict.lookup mut_resname RES_CODES = Some c2 /\
    mut_pdb_fname w =
      fname_of pdb_name target_chain target_resnum c1 c2.
Proof.
  unfold mutate, Dict.get. intro E. bind_inv E. bind_inv E. bind_inv E.
  injection E as <-. apply mutate_loop_resname in E0. simpl in E0.
  rewrite E0 in E1.
  destruct (Dict.lookup (first_resname _ _ lines) RES_CODES) as [c1|];
    [|discriminate].
  destruct (Dict.lookup mut_resname RES_CODES) as [c2|]; [|discriminate].
  injection E1 as <-. injection E2 as <-. exists c1, c2.
  split; [reflexivity|]. split; reflexivity.
Qed.

(** X14: when the file has no ATOM record of the requested chain and
    residue number, the call does not return and nothing is written: the
    loop ends with an empty residue name, and the lookup of its code
    raises KeyError for the empty text. *)
Theorem mutate_absent_residue_raises pdb_name lines :
  (forall line, In line lines ->
     is_target target_chain target_resnum line = false) ->
  (forall w,
     mutate pdb_name lines target_chain target_resnum mut_resname <> Ok w) /\
  (forall st,
     mutate_loop target_chain target_resnum mut_resname lines
       (mk_locals [] "") = Ok st ->
     mutate pdb_name lines target_chain target_resnum mut_resname
       = Raise (KeyError "")).
Proof.
  intro N.
  assert (K : forall st,
            mutate_loop target_chain target_resnum mut_resname lines
              (mk_locals [] "") = Ok st ->
            mutate pdb_name lines target_chain target_resnum mut_resname
              = Raise (KeyError "")).
  { intros st E. unfold mutate. rewrite E. cbn [bind].
    apply mutate_loop_resname in E. simpl in E.
    rewrite (first_resname_none _ N) in E. rewrite E. reflexivity. }
  split; [|exact K].
  intros w E. unfold mutate in E.
  destruct (mutate_loop target_chain target_resnum mut_resname lines
              (mk_locals [] "")) as [st|e] eqn:L; [|discriminate].
  pose proof (K st eq_refl) as R. unfold mutate in R. rewrite L in R.
  congruence.
Qed.
End MutateExtra.

(** X13, a witness: TYR 12 of chain A of the sample structure to ALA. *)
Lemma mutate_names_the_file_witness :
  exists w,
    Mutate.mutate "m.pdb" Mutate.ex_pdb "A" 12 "ALA" = Ok w /\
    Mutate.mut_pdb_fname w = "m-A_Y12A.pdb".
Proof.
  eexists. split; [vm_compute; reflexivity|].
  destruct (mutate_names_the_file "A" 12 "ALA" "m.pdb" Mutate.ex_pdb _
              eq_refl) as (c1 & c2 & L1 & L2 & F).
  vm_compute in L1, L2. injection L1 as <-. injection L2 as <-.
  reflexivity.
Defined.

(** X14, a witness: the sample structure has no residue 99 in chain A. *)
Lemma mutate_absent_residue_raises_witness :
  Mutate.mutate "m.pdb" Mutate.ex_pdb "A" 99 "ALA" = Raise (KeyError "").
Proof.
  eapply (proj2 (mutate_absent_residue_raises "A" 99 "ALA" "m.pdb"
                   Mutate.ex_pdb _)).
  vm_compute. reflexivity.
  Unshelve.
  intros line I.
  repeat (destruct I as [<-|I]; [vm_compute; reflexivity|]).
  destruct I.
Defined.

Section MutateAgain.
Import Mutate MutateSpec.

Lemma rename_record mut_resname line f :
  String.length mut_resname = 3%nat ->
  atom_fields line = Ok f ->
  atom_fields (rename mut_resname line) = Ok f /\
  PyStr.startswith (rename mut_resname line) "ATOM"
    = PyStr.startswith line "ATOM" /\
  PyStr.slice 17 20 (rename mut_resname line) = mut_resname /\
  rename mut_resname (rename mut_resname line) = rename mut_resname line.
Proof.
  intros L F.
  destruct mut_resname as [|m0 [|m1 [|m2 [|? ?]]]]; try discriminate.
  assert (G : get 21 line <> None).
  { unfold atom_fields, PyStr.index in F.
    destruct (get 21 line); [discriminate | discriminate]. }
  do 22 (destruct line as [|? line]; [now simpl in G|]).
  clear G. repeat split; try reflexivity.
  rewrite <- F. reflexivity.
Qed.

(** X15: with a target name of three characters, a record rewritten is
    still a record of the same chain, residue number and atom name and
    starts as before; columns 17 to 19 hold the target name, and rewriting
    it once more changes nothing. *)
Theorem rename_keeps_the_record mut_resname line f :
  String.length mut_resname = 3%nat ->
  atom_fields line = Ok f ->
  atom_fields (rename mut_resname line) = Ok f /\
  PyStr.startswith (rename mut_resname line) "ATOM"
    = PyStr.startswith line "ATOM" /\
  PyStr.slice 17 20 (rename mut_resname line) = mut_resname /\
  rename mut_resname (rename mut_resname line) = rename mut_resname line.
Proof. apply rename_record. Qed.

Section Again.
Variables (target_chain : string) (target_resnum : Z) (mut_resname : string).

#[local] Abbreviation is_target_x := (is_target target_chain target_resnum).
#[local] Abbreviation kept_x := (kept target_chain target_resnum).
#[local] Abbreviation rewritten_x :=
  (rewritten target_chain target_resnum mut_resname).
#[local] Abbreviation loop_x :=
  (mutate_loop target_chain target_resnum mut_resname).

Lemma mutate_loop_parsed lines : forall st st',
  loop_x lines st = Ok st' ->
  forall line, In line lines -> PyStr.startswith line "ATOM" = true ->
  exists f, atom_fields line = Ok f.
Proof.
  induction lines as [|l rest IH]; simpl; intros st st' E line I A;
    [contradiction|].
  bind_inv E. destruct I as [<-|I]; [|eapply IH; eauto].
  unfold mutate_line in E0. rewrite A in E0.
  destruct (atom_fields l) as [f|e]; [now exists f | discriminate].
Qed.

#[local] Abbreviation settled :=
  (MutateSpec.settled target_chain target_resnum mut_resname).

Lemma settled_written lines st st' :
  String.length mut_resname = 3%nat ->
  loop_x lines st = Ok st' ->
  Forall settled (map rewritten_x (filter kept_x lines)).
Proof.
  intros L E. apply Forall_forall. intros out I.
  apply in_map_iff in I as (line & <- & I).
  apply filter_In in I as [I K].
  assert (A : PyStr.startswith line "ATOM" = true)
    by (unfold kept in K; now apply andb_prop in K as [A _]).
  destruct (mutate_loop_parsed _ _ _ E line I A) as (f & F).
  unfold MutateSpec.settled, rewritten.
  destruct (is_target_x line) eqn:T.
  - destruct (rename_record mut_resname line f L F) as (F' & A' & _ & R).
    assert (T' : is_target_x (rename mut_resname line) = true).
    { pose proof T as T0. unfold is_target in T0 |- *.
      rewrite A', F'. now rewrite F in T0. }
    assert (K' : kept_x (rename mut_resname line) = true).
    { pose proof K as K0. unfold kept in K0 |- *. rewrite A', T'.
      rewrite T in K0. unfold atom_name_listed in K0 |- *.
      rewrite F'. now rewrite F in K0. }
    rewrite T'. split; [now exists f|]. split; [exact K' | exact R].
  - rewrite T. split; [now exists f|]. split; [exact K | reflexivity].
Qed.

Lemma loop_over_settled lines : forall st,
  Forall settled lines ->
  exists st', loop_x lines st = Ok st' /\
              mut_pdb_l st' = (mut_pdb_l st ++ lines)%list.
Proof.
  induction lines as [|l rest IH]; intros st S.
  - exists st. split; [reflexivity | now rewrite app_nil_r].
  - inversion S as [|? ? [(f & F) [K R]] S']; subst.
    assert (A : PyStr.startswith l "ATOM" = true)
      by (unfold kept in K; now apply andb_prop in K as [A _]).
    destruct (mutate_line target_chain target_resnum mut_resname st l)
      as [st1|e] eqn:E.
    + destruct (IH st1 S') as (st' & E' & M).
      exists st'. cbn [mutate_loop]. rewrite E. cbn [bind].
      split; [exact E'|].
      rewrite M, (mutate_line_lines _ _ _ _ _ _ E). cbn [filter].
      rewrite K. cbn [map]. rewrite R. now rewrite <- app_assoc.
    + exfalso. unfold mutate_line in E. rewrite A, F in E. cbn [bind] in E.
      destruct f as [[c n] a].
      destruct ((target_chain =? c)%string && (target_resnum =? n))%bool;
        [destruct (PyStr.mem a ATOMS_TO_BE_MUTATED)|]; discriminate.
Qed.

(** X16: with a target name of three characters, a second pass over the
    lines written, for the same residue and target, reads every line and
    writes the same lines again: what a call wrote, a further call on it
    writes unchanged. *)
Theorem mutate_again_writes_the_same pdb_name lines w :
  String.length mut_resname = 3%nat ->
  mutate pdb_name lines target_chain target_resnum mut_resname = Ok w ->
  (exists st',
     mutate_loop target_chain target_resnum mut_resname (mut_pdb_lines w)
       (mk_locals [] "") = Ok st' /\
     mut_pdb_l st' = mut_pdb_lines w) /\
  (forall pdb_name' w',
     mutate pdb_name' (mut_pdb_lines w) target_chain target_resnum
       mut_resname = Ok w' ->
     mut_pdb_lines w' = mut_pdb_lines w /\
     mut_pdb_text w' = mut_pdb_text w).
Proof.
  intros L E. unfold mutate in E. bind_inv E. bind_inv E. bind_inv E.
  injection E as <-. cbn [mut_pdb_lines mut_pdb_text].
  pose proof (mutate_loop_lines _ _ _ _ _ _ E0) as M. simpl in M.
  pose proof (settled_written _ _ _ L E0) as S. rewrite <- M in S.
  destruct (loop_over_settled _ (mk_locals [] "") S) as (st' & E' & M').
  simpl in M'. split; [now exists st'|].
  intros name' w' X. unfold mutate in X. rewrite E' in X.
  cbn [bind] in X. bind_inv X. bind_inv X. injection X as <-.
  cbn [mut_pdb_lines mut_pdb_text]. now rewrite M'.
Qed.
End Again.
End MutateAgain.

(** X15, a witness: the first record of the sample structure. *)
Lemma rename_keeps_the_record_witness :
  Mutate.atom_fields (Mutate.rename "ALA" Mutate.ex_n) = Ok ("A", 12, "N").
Proof.
  apply (rename_keeps_the_record "ALA" Mutate.ex_n ("A", 12, "N"));
    reflexivity.
Defined.

(** X16, a witness: the sample structure mutated twice. *)
Lemma mutate_again_writes_the_same_witness :
  exists w w',
    Mutate.mutate "m.pdb" Mutate.ex_pdb "A" 12 "ALA" = Ok w /\
    Mutate.mutate "m-A_Y12A.pdb" (Mutate.mut_pdb_lines w) "A" 12 "ALA"
      = Ok w' /\
    Mutate.mut_pdb_lines w' = Mutate.mut_pdb_lines w.
Proof.
  destruct (Mutate.mutate "m.pdb" Mutate.ex_pdb "A" 12 "ALA")
    as [w|e] eqn:E; [|vm_compute in E; discriminate].
  destruct (Mutate.mutate "m-A_Y12A.pdb" (Mutate.mut_pdb_lines w)
              "A" 12 "ALA") as [w'|e] eqn:E'.
  - exists w, w'. split; [reflexivity|]. split; [exact E'|].
    exact (proj1 (proj2 (mutate_again_writes_the_same "A" 12 "ALA" "m.pdb"
                           Mutate.ex_pdb w eq_refl E)
                    "m-A_Y12A.pdb" w' E')).
  - exfalso. vm_compute in E. injection E as <-. vm_compute in E'.
    discriminate.
Defined.


(** ** [alascan_cluster_analysis]: the occurrence count and the population *)

Section FractionExtra.
Import Cluster ClusterSpec.

Lemma nodup_occurs_once ident rows :
  NoDup (map ident_of rows) ->
  (List.length (occurrences ident rows) <= 1)%nat.
Proof.
  unfold occurrences. induction rows as [|r rows IH]; simpl; intro N; [lia|].
  inversion N as [|? ? N0 N1]; subst. specialize (IH N1).
  destruct (ident_of r =? ident)%string eqn:Q; [|exact IH].
  apply String.eqb_eq in Q. subst ident. simpl.
  destruct (filter (fun x => (ident_of x =? ident_of r)%string) rows)
    as [|x l] eqn:F; [simpl; lia|].
  exfalso. apply N0.
  assert (I : In x (filter (fun x => (ident_of x =? ident_of r)%string) rows))
    by (rewrite F; now left).
  apply filter_In in I as [I E]. apply String.eqb_eq in E.
  rewrite <- E. now apply in_map.
Qed.

Lemma occurrences_flat_map ident (f : model -> list scan_row) ms :
  (forall m, In m ms -> (List.length (occurrences ident (f m)) <= 1)%nat) ->
  (List.length (occurrences ident (flat_map f ms)) <= List.length ms)%nat.
Proof.
  unfold occurrences. induction ms as [|m ms IH]; simpl; intro H; [lia|].
  rewrite filter_app, length_app.
  specialize (H m (or_introl eq_refl)) as H1.
  assert (H2 := IH (fun x I => H x (or_intror I))). lia.
Qed.

(** X17: when no file lists a key twice, the occurrence count of a key is
    at least one and at most the number of models of its cluster, so that
    fraction-present is a quotient of counts between 1/population and
    1. *)
Theorem occurrences_within_population files models clt_scan written :
  alascan_cluster_analysis files models = Ok (clt_scan, written) ->
  (forall m, In m models -> NoDup (map ident_of (rows_of files m))) ->
  forall k d ident e,
    Dict.lookup k clt_scan = Some d -> Dict.lookup ident d = Some e ->
    1 <= frac_pr e <= population k models.
Proof.
  unfold alascan_cluster_analysis. intros E N k d ident e Lk Li.
  bind_inv E. destruct a as [s p]. bind_inv E. injection E as <- _.
  assert (P := visit_all_ok_present _ _ _ _ E0).
  destruct (visit_all_agrees files models [] ([], []) agrees_start P)
    as (st' & E' & A).
  rewrite E0 in E'. injection E' as <-. simpl in A.
  destruct (A k) as [_ Sk]. rewrite Lk in Sk. destruct Sk as [_ Sd].
  specialize (Sd ident). rewrite Li, hist_rows_history in Sd.
  symmetry in Sd.
  destruct (entry_of_sums _ _ Sd) as (_ & _ & _ & _ & _ & F & F1).
  split; [exact F1|]. rewrite F. unfold population, cluster_rows.
  apply inj_le. apply occurrences_flat_map.
  intros m I. apply nodup_occurs_once. apply N.
  unfold members in I. now apply filter_In in I as [I _].
Qed.
End FractionExtra.

(** X17, a witness: the two sample structures. *)
Lemma occurrences_within_population_witness :
  exists clt_scan written d e,
    Cluster.alascan_cluster_analysis ClusterSpec.two_files
      ClusterSpec.two_models = Ok (clt_scan, written) /\
    Dict.lookup (Cluster.KInt 1) clt_scan = Some d /\
    Dict.lookup "A-13-GLY" d = Some e /\
    1 <= Cluster.frac_pr e <= 2.
Proof.
  destruct (Cluster.alascan_cluster_analysis ClusterSpec.two_files
              ClusterSpec.two_models) as [[clt_scan written]|x] eqn:E;
    [|vm_compute in E; discriminate].
  assert (Lk : exists d e,
             Dict.lookup (Cluster.KInt 1) clt_scan = Some d /\
             Dict.lookup "A-13-GLY" d = Some e).
  { vm_compute in E. injection E as <- _. do 2 eexists. split; reflexivity. }
  destruct Lk as (d & e & Lk & Li).
  exists clt_scan, written, d, e. split; [reflexivity|].
  split; [exact Lk|]. split; [exact Li|].
  apply (occurrences_within_population _ _ _ _ E) with (k := Cluster.KInt 1)
    (d := d) (ident := "A-13-GLY"); try assumption.
  intros m [<-|[<-|[]]]; vm_compute; repeat constructor; simpl; intuition
    discriminate.
Defined.

(** ** [get_greetings]: how many greetings *)

Section GreetingsExtra.
Import Greetings.
Variable sample : list string -> nat -> list string.
Hypothesis sample_ok : samples sample.

(** X18: on no options the call raises; otherwise the greetings are
    [how_many] modulo the number of options many, each an option followed
    by the exclamation: never all the options at once, and none at all
    (the empty text) when [how_many] is a multiple of the number of
    options. *)
Theorem greetings_are_modulo_many options how_many sep exclamation :
  (options = [] ->
     get_greetings sample options how_many sep exclamation = None) /\
  (options <> [] ->
     exists picked,
       get_greetings sample options how_many sep exclamation =
         Some (String.concat sep (map (fun s => s ++ exclamation) picked)) /\
       Z.of_nat (List.length picked) =
         how_many mod Z.of_nat (List.length options) /\
       (List.length picked < List.length options)%nat /\
       incl picked options /\
       (how_many mod Z.of_nat (List.length options) = 0 ->
          get_greetings sample options how_many sep exclamation = Some "")).
Proof.
  split.
  - intros ->. reflexivity.
  - intro N. unfold get_greetings.
    assert (P : 0 < Z.of_nat (List.length options))
      by (destruct options; [contradiction | simpl; lia]).
    destruct (Z.eqb_spec (Z.of_nat (List.length options)) 0) as [Z0|_];
      [lia|].
    pose proof (Z.mod_pos_bound how_many _ P) as B.
    set (n := how_many mod Z.of_nat (List.length options)) in *.
    destruct (sample_ok options (Z.to_nat n)) as [L I]; [lia|].
    exists (sample options (Z.to_nat n)). split; [reflexivity|].
    split; [rewrite L; lia|]. split; [rewrite L; lia|].
    split; [exact I|]. intro Z0.
    destruct (sample options (Z.to_nat n)) as [|x l]; [reflexivity|].
    rewrite Z0 in L. discriminate.
Qed.
End GreetingsExtra.

(** X18, a witness: three of four options, and four of four. *)
Lemma greetings_are_modulo_many_witness :
  Greetings.get_greetings Greetings.take_first
    ["Agur"; "Ciao"; "Good bye"; "Tot ziens"] 3 " " "!"
    = Some "Agur! Ciao! Good bye!" /\
  Greetings.get_greetings Greetings.take_first
    ["Agur"; "Ciao"; "Good bye"; "Tot ziens"] 4 " " "!" = Some "".
Proof.
  assert (S : Greetings.samples Greetings.take_first).
  { intros l k L. unfold Greetings.take_first. split.
    - apply firstn_length_le, L.
    - intros x I. rewrite <- (firstn_skipn k l). apply in_or_app. now left. }
  split; [reflexivity|].
  destruct (proj2 (greetings_are_modulo_many Greetings.take_first S
                     ["Agur"; "Ciao"; "Good bye"; "Tot ziens"] 4 " " "!"))
    as (picked & _ & _ & _ & _ & Z0).
  - discriminate.
  - apply Z0. reflexivity.
Defined.

(** ** sasascore: the residue dictionaries *)

Section SasaExtra.
Import SasaScore.
Context {V : Type}.
Implicit Types (params d : Dict.t string V).

Lemma resdic_lookup prefix c params : forall d (o : option V),
  Dict.lookup c d = o ->
  Dict.lookup c
    (fold_left
       (fun d kv =>
          if PyStr.startswith (fst kv) prefix
          then Dict.set (last_char (fst kv)) (snd kv) d
          else d)
       params d) =
  fold_left
    (fun o kv =>
       if (PyStr.startswith (fst kv) prefix
           && (last_char (fst kv) =? c)%string)%bool
       then Some (snd kv) else o)
    params o.
Proof.
  induction params as [|[key v] rest IH]; intros d o L; [exact L|].
  cbn [fold_left fst snd]. apply IH.
  destruct (PyStr.startswith key prefix); [|exact L]. cbn [andb].
  destruct (String.eqb_spec (last_char key) c) as [->|N].
  - apply lookup_set_same.
  - rewrite lookup_set_other by congruence. exact L.
Qed.

Lemma pop_lookup k d d' c :
  pop k d = Ok d' ->
  Dict.lookup c d' = if (c =? k)%string then None else Dict.lookup c d.
Proof.
  unfold pop. destruct (Dict.lookup k d); [|discriminate]. intros [= <-].
  induction d as [|[k0 v0] d IH]; simpl.
  - now destruct (c =? k)%string.
  - destruct (String.eqb_spec k0 k) as [->|N]; simpl.
    + rewrite IH. unfold keqb, string_EqKey.
      now destruct (c =? k)%string.
    + unfold keqb, string_EqKey in *.
      destruct (String.eqb_spec c k0) as [->|N'].
      * destruct (String.eqb_spec k0 k); [contradiction | reflexivity].
      * exact IH.
Qed.

(** X19: when the two dictionaries are made, the entry of a chain is the
    value of the last parameter of the prefix whose name ends in the
    character of the chain, and the placeholder key of one underscore is
    gone; the call raises KeyError for the underscore exactly when the
    parameters of one of the two prefixes have no name that ends in an
    underscore. *)
Theorem resdics_by_last_character params :
  (forall buried acc, resdics params = Ok (buried, acc) ->
     forall c,
       Dict.lookup c buried =
         (if (c =? "_")%string then None
          else last_value "resdic_buried" c params) /\
       Dict.lookup c acc =
         (if (c =? "_")%string then None
          else last_value "resdic_accessible" c params)) /\
  (resdics params = Raise (KeyError "_") <->
     last_value "resdic_buried" "_" params = None \/
     last_value "resdic_accessible" "_" params = None).
Proof.
  assert (B : forall prefix c,
            Dict.lookup c (resdic prefix params) = last_value prefix c params)
    by (intros; now apply resdic_lookup).
  split.
  - intros buried acc E c. unfold resdics in E. bind_inv E. bind_inv E.
    injection E as <- <-.
    rewrite (pop_lookup _ _ _ c E0), (pop_lookup _ _ _ c E1), !B.
    now split.
  - unfold resdics, pop. rewrite !B.
    destruct (last_value "resdic_buried" "_" params);
      destruct (last_value "resdic_accessible" "_" params); simpl;
      split; try tauto; try discriminate;
      intros [H|H]; discriminate.
Qed.
End SasaExtra.

(** X19, a witness: the sample parameters. *)
Lemma resdics_by_last_character_witness :
  exists buried acc,
    SasaScore.resdics SasaScore.ex_params = Ok (buried, acc) /\
    Dict.lookup "A" buried = Some [1; 2; 3] /\
    Dict.lookup "_" buried = None.
Proof.
  destruct (SasaScore.resdics SasaScore.ex_params) as [[buried acc]|e] eqn:E;
    [|vm_compute in E; discriminate].
  exists buried, acc. split; [reflexivity|].
  pose proof (proj1 (resdics_by_last_character SasaScore.ex_params)
                buried acc E) as H.
  split.
  - exact (proj1 (H "A")).
  - exact (proj1 (H "_")).
Defined.
